(** * CyberPower OS login drivers (netmiko/cyberpower/cyberpower_os.py)

    A shallow embedding of the SSH-style login poller
    [CyberPowerOSBase.special_login_handler] and of the Telnet driver
    [CyberPowerOSTelnet] ([_process_option], [command_echo_read],
    [_telnet_login]), together with the properties of the login handshake.

    Python strings are [string]; [bytes] objects are [list byte]; the
    channel is an explicit world that is threaded through a small
    state-and-exception monad. *)

From Stdlib Require Import List String Ascii Strings.Byte Bool Arith ZArith Lia.
Import ListNotations.
Open Scope string_scope.

(* ================================================================== *)
(** * Python strings *)
(* ================================================================== *)

Module PyStr.

(** [needle in hay] for two Python strings. *)
Fixpoint contains (needle hay : string) : bool :=
  match hay with
  | EmptyString => prefix needle EmptyString
  | String _ hay' => prefix needle hay || contains needle hay'
  end.

(** [hay] with its first [n] characters removed ([hay[n:]]). *)
Fixpoint drop (n : nat) (s : string) : string :=
  match n, s with
  | O, _ => s
  | S _, EmptyString => EmptyString
  | S n', String _ s' => drop n' s'
  end.

(** The scanning loop of [str.split(sep)] for a non-empty separator
    [String c0 sep']: [skip] counts the characters of a separator
    occurrence that are still to be stepped over, [cur] is the segment
    read so far.  Occurrences are found left to right and do not
    overlap. *)
Fixpoint split_go (c0 : ascii) (sep' : string) (skip : nat) (cur s : string)
  : list string :=
  match s with
  | EmptyString => [cur]
  | String c s' =>
      match skip with
      | S k => split_go c0 sep' k cur s'
      | O =>
          if prefix (String c0 sep') s
          then cur :: split_go c0 sep' (String.length sep') EmptyString s'
          else split_go c0 sep' O (cur ++ String c EmptyString) s'
      end
  end.

(** [s.split(sep)]: Python raises [ValueError] for the empty separator,
    which is [None] here. *)
Definition split (sep s : string) : option (list string) :=
  match sep with
  | EmptyString => None
  | String c0 sep' => Some (split_go c0 sep' O EmptyString s)
  end.

(** [sep.join(l)]. *)
Fixpoint join (sep : string) (l : list string) : string :=
  match l with
  | [] => EmptyString
  | [x] => x
  | x :: l' => x ++ sep ++ join sep l'
  end.

(** [lines[-1]], with the empty string standing for the [IndexError] that
    cannot occur on the result of a split. *)
Definition last_segment (l : list string) : string := last l EmptyString.

End PyStr.

(* ================================================================== *)
(** * The channel and the exceptions *)
(* ================================================================== *)

(** What one [read_channel()] call meets: buffered text (possibly empty), or
    a closed stream, on which the read raises [EOFError]. *)
Inductive rd : Type :=
| Data (s : string)
| Eof.

(** The source statement a channel write comes from. *)
Inductive wkind : Type :=
| WUser   (* self.username + terminator *)
| WPass   (* self.password + terminator *)
| WEnter. (* a bare line terminator *)

(** Sleep durations, in tenths of a second: a fixed pause, or a pause that
    is multiplied by the caller's [delay_factor]. *)
Inductive dur : Type :=
| Fixed (tenths : nat)
| Scaled (tenths : nat).

(** What the driver does to the outside world, in order. *)
Inductive event : Type :=
| ERead (s : string)
| EReadEof
| EWrite (k : wkind) (s : string)
| ESleep (d : dur)
| EClose.

Inductive exn : Type :=
| EOFError
| TypeError
| AssertionError
| ValueError
| OverflowError
| NetmikoAuthenticationException (msg : string)
| NetmikoTimeoutException (msg : string).

(** The world of one login call.  [pending] is the script of what the
    successive reads will meet (a read past its end finds nothing buffered
    and returns the empty string); [log] is the trace of events so far;
    [clock] is [time.time()] in tenths of a second, advanced by the fixed
    sleeps; [steps] counts the read/react steps of [_telnet_login]. *)
Record world : Type := mkWorld {
  pending : list rd;
  log : list event;
  clock : nat;
  steps : nat
}.

Inductive outcome (A : Type) : Type :=
| Ok (a : A)
| Raise (e : exn)
| Fuel.
Arguments Ok {A} a.
Arguments Raise {A} e.
Arguments Fuel {A}.

Definition M (A : Type) : Type := world -> outcome A * world.

Definition ret {A} (a : A) : M A := fun w => (Ok a, w).

Definition bind {A B} (m : M A) (f : A -> M B) : M B :=
  fun w =>
    match m w with
    | (Ok a, w') => f a w'
    | (Raise e, w') => (Raise e, w')
    | (Fuel, w') => (Fuel, w')
    end.

Definition raise {A} (e : exn) : M A := fun w => (Raise e, w).

Definition out_of_fuel {A} : M A := fun w => (Fuel, w).

Notation "x <- m ;; k" := (bind m (fun x => k))
  (at level 61, m at next level, right associativity).
Notation "m ;; k" := (bind m (fun _ => k))
  (at level 61, right associativity).

Definition emit (e : event) (w : world) : world :=
  mkWorld (pending w) (log w ++ [e]) (clock w) (steps w).

(** [self.read_channel()]. *)
Definition read_channel : M string :=
  fun w =>
    match pending w with
    | [] => (Ok EmptyString, emit (ERead EmptyString) w)
    | Data s :: rest =>
        (Ok s, mkWorld rest (log w ++ [ERead s]) (clock w) (steps w))
    | Eof :: rest =>
        (Raise EOFError, mkWorld rest (log w ++ [EReadEof]) (clock w) (steps w))
    end.

(** [self.write_channel(s)]. *)
Definition write_channel (k : wkind) (s : string) : M unit :=
  fun w => (Ok tt, emit (EWrite k s) w).

(** [time.sleep(n / 10)]. *)
Definition sleep (tenths : nat) : M unit :=
  fun w =>
    (Ok tt, mkWorld (pending w) (log w ++ [ESleep (Fixed tenths)])
                    (clock w + tenths) (steps w)).

(** [time.sleep(n / 10 * delay_factor)]. [_telnet_login] never looks at the
    clock, so only the event is kept. *)
Definition sleep_scaled (tenths : nat) : M unit :=
  fun w => (Ok tt, emit (ESleep (Scaled tenths)) w).

(** [self.remote_conn.close()]. *)
Definition close : M unit :=
  fun w => (Ok tt, emit EClose w).

(** [time.time()]. *)
Definition time : M nat := fun w => (Ok (clock w), w).

(** Ghost: one more read/react step begins. *)
Definition tick : M unit :=
  fun w => (Ok tt, mkWorld (pending w) (log w) (clock w) (S (steps w))).

(** [assert isinstance(x, str)] for an optional string attribute. *)
Definition assert_str (x : option string) : M string :=
  match x with
  | Some s => ret s
  | None => raise AssertionError
  end.

(** [x + suffix] for an optional string attribute: [None + str] is a
    [TypeError]. *)
Definition str_add (x : option string) (suffix : string) : M string :=
  match x with
  | Some s => ret (s ++ suffix)
  | None => raise TypeError
  end.

Definition initial (script : list rd) : world := mkWorld script [] 0 0.

(** ** Observations on traces *)

(** Is the event a write issued by the statement [k]? *)
Definition is_write (k : wkind) (e : event) : bool :=
  match e, k with
  | EWrite WUser _, WUser => true
  | EWrite WPass _, WPass => true
  | EWrite WEnter _, WEnter => true
  | _, _ => false
  end.

Definition is_eof (e : event) : bool :=
  match e with EReadEof => true | _ => false end.

Definition is_close (e : event) : bool :=
  match e with EClose => true | _ => false end.

(** How many events of a trace pass the test [p]. *)
Definition count (p : event -> bool) (d : list event) : nat :=
  List.length (filter p d).

(** How many writes of kind [k] a trace has. *)
Definition count_writes (k : wkind) (d : list event) : nat :=
  count (is_write k) d.

(** A stretch of the trace with no last-ditch write, no failed read and no
    close. *)
Definition quiet (d : list event) : Prop :=
  count_writes WEnter d = 0 /\ count is_eof d = 0 /\ count is_close d = 0.

(** What the next read of the channel will meet. *)
Definition buffered (w : world) : rd :=
  match pending w with
  | [] => Data EmptyString
  | r :: _ => r
  end.

(** Carriage return and line feed. *)
Definition CR : string := String (ascii_of_nat 13) EmptyString.
Definition LF : string := String (ascii_of_nat 10) EmptyString.

(* ================================================================== *)
(** * Python numbers *)
(* ================================================================== *)

Module PyNum.

(** [num / den] rounded to the nearest integer, a tie going to the even
    one, for [0 <= num] and [0 < den]. *)
Definition round_half_even (num den : Z) : Z :=
  let q := (num / den)%Z in
  let r := (num mod den)%Z in
  if (2 * r <? den)%Z then q
  else if (den <? 2 * r)%Z then (q + 1)%Z
  else if Z.even q then q else (q + 1)%Z.

(** [int(a / b)] for two positive integers.  The true division of two
    integers is their quotient rounded to the nearest double, a number
    [m * 2 ^ e] with [m] below [2 ^ 53]: [fl] is the integer part of the
    binary logarithm of the quotient, [e] the exponent that leaves 53 bits
    to the mantissa (and no less than that of the smallest doubles), [m]
    the mantissa, rounded half to even.  A result of [2 ^ 1024] or more is
    too large for a double, and the division raises [OverflowError], which
    is [None] here.  [int] then cuts the fraction off. *)
Definition int_true_div_pos (a b : Z) : option Z :=
  let d := (Z.log2 a - Z.log2 b)%Z in
  let fl :=
    if (b * 2 ^ Z.max 0 d <=? a * 2 ^ Z.max 0 (- d))%Z then d else (d - 1)%Z in
  let e := Z.max (fl - 52) (-1074) in
  let m := round_half_even (a * 2 ^ Z.max 0 (- e)) (b * 2 ^ Z.max 0 e) in
  if (0 <=? e)%Z then
    if (2 ^ 1024 <=? m * 2 ^ e)%Z then None else Some (m * 2 ^ e)%Z
  else Some (m / 2 ^ (- e))%Z.

(** [int(a / b)] for an integer [a] and a positive integer [b]: division
    and truncation are both symmetric about zero. *)
Definition int_true_div (a b : Z) : option Z :=
  match a with
  | Z0 => Some 0%Z
  | Zpos _ => int_true_div_pos a b
  | Zneg _ => option_map Z.opp (int_true_div_pos (- a) b)
  end.

End PyNum.

(* ================================================================== *)
(** * CyberPowerOSBase.special_login_handler *)
(* ================================================================== *)

Module Poller.

(** [login_timeout = 20] seconds, in tenths of a second. *)
Definition login_timeout : nat := 200.

(** The message of the timeout exception.  The source writes it as a
    plain triple-quoted literal (there is no [f] prefix), so the braces
    and the name between them are part of the text. *)
Definition timeout_msg : string :=
  LF ++ "Login process failed to CyberPower OS device. Unable to login in {login_timeout} seconds." ++ LF.

(** How one pass through the loop body ends: [break], or on to the next
    test of the loop condition with the new value of [new_data]. *)
Inductive ctl : Type :=
| Break
| Next (new_data : string).

Section WithSession.

(** [self.username], [self.password] and [self.RETURN]. *)
Variables (username password : option string) (RETURN : string).

(** [if x:] on a Python string. *)
Definition truthy (s : string) : bool := negb (s =? EmptyString).

(** [self.read_channel() if not new_data else new_data]. *)
Definition next_output (new_data : string) : M string :=
  if negb (truthy new_data) then read_channel else ret new_data.

(** The body of the [while] loop. *)
Definition poll_iter (new_data : string) : M ctl :=
  output <- next_output new_data ;;
  if truthy output then
    if PyStr.contains "Login Name:" output then
      u <- assert_str username ;;
      write_channel WUser (u ++ RETURN) ;;
      sleep 1 ;;
      ret (Next EmptyString)
    else if PyStr.contains "Login Password:" output then
      p <- assert_str password ;;
      write_channel WPass (p ++ RETURN) ;;
      ret Break
    else
      sleep 1 ;;
      ret (Next EmptyString)
  else
    sleep 5 ;;
    new_data <- read_channel ;;
    (if negb (truthy new_data) then write_channel WEnter RETURN else ret tt) ;;
    ret (Next new_data).

(** The [while ... else] loop; [fuel] bounds the number of passes. *)
Fixpoint poll_loop (fuel : nat) (start : nat) (new_data : string) : M unit :=
  now <- time ;;
  if (now - start <? login_timeout)%nat then
    match fuel with
    | O => out_of_fuel
    | S fuel' =>
        r <- poll_iter new_data ;;
        match r with
        | Break => ret tt
        | Next new_data' => poll_loop fuel' start new_data'
        end
    end
  else raise (NetmikoTimeoutException timeout_msg).

(** Every pass that does not leave the loop sleeps for at least a tenth
    of a second, so [login_timeout] passes are enough. *)
Definition special_login_handler : M unit :=
  sleep 1 ;;
  start <- time ;;
  poll_loop login_timeout start EmptyString.

(** The trace [d] has no password write, except possibly as its last
    event. *)
Definition password_last (d : list event) : Prop :=
  exists d0 p,
    password = Some p /\
    d = (d0 ++ [EWrite WPass (p ++ RETURN)])%list /\
    count_writes WPass d0 = 0.

End WithSession.

End Poller.

(* ================================================================== *)
(** * CyberPowerOSTelnet *)
(* ================================================================== *)

Module Telnet.

(** ** Option negotiation *)

Definition bytes : Type := list byte.

Fixpoint bytes_eqb (a b : bytes) : bool :=
  match a, b with
  | [], [] => true
  | x :: a', y :: b' => Byte.eqb x y && bytes_eqb a' b'
  | _, _ => false
  end.

(** The constants of [telnetlib]. *)
Definition IAC : bytes := [xff].
Definition DONT : bytes := [xfe].
Definition DO : bytes := [xfd].
Definition WONT : bytes := [xfc].
Definition WILL : bytes := [xfb].
Definition SE : bytes := [xf0].
Definition ECHO : bytes := [x01].
Definition NOOPT : bytes := [x00].

(** A socket is the list of the messages given to [sendall], oldest
    first. *)
Definition socket : Type := list bytes.

Definition sendall (tsocket : socket) (data : bytes) : socket :=
  (tsocket ++ [data])%list.

Definition _process_option (tsocket : socket) (command option : bytes) : socket :=
  if bytes_eqb option ECHO then
    sendall tsocket (IAC ++ DO ++ ECHO)%list
  else if bytes_eqb command DO || bytes_eqb command DONT then
    sendall tsocket (IAC ++ WONT ++ option)%list
  else if bytes_eqb command WILL || bytes_eqb command WONT then
    sendall tsocket (IAC ++ DONT ++ option)%list
  else tsocket.

(** ** Echo normalisation *)

(** [command_echo_read(cmd, read_timeout)].  [search_pattern] is what
    [self._prompt_handler(True)] returns; that method belongs to the base
    connection class.  [read_timeout] is not used by the body. *)
Definition command_echo_read (search_pattern cmd : string) : M string :=
  new_data <- read_channel ;;
  match PyStr.split search_pattern new_data with
  | None => raise ValueError
  | Some lines =>
      if (List.length lines =? 2)%nat
      then ret (cmd ++ PyStr.last_segment lines)
      else ret new_data
  end.

(** ** The login automaton *)

(** How a read/react step, a round or the round loop ends: the function
    returned [return_msg], or it goes on with the transcript so far. *)
Inductive ctl : Type :=
| Returned (return_msg : string)
| Continue (return_msg : string).

(** [try: body except EOFError: handler]. *)
Definition try_eof {A} (body handler : M A) : M A :=
  fun w =>
    match body w with
    | (Raise EOFError, w') => handler w'
    | r => r
    end.

Definition outer_loops : nat := 3.

(** [int(max_loops / outer_loops)] of line 134: the true division of the
    two integers in floating point, then the truncation of the double;
    [None] when the division raises [OverflowError]. *)
Definition compute_inner_loops (max_loops : Z) : option Z :=
  PyNum.int_true_div max_loops (Z.of_nat outer_loops).

Section WithSession.

(** [self.username], [self.password], [self.host] and
    [self.TELNET_RETURN]. *)
Variables (username password : option string) (host TELNET_RETURN : string).

(** The four patterns, each as the test [re.search(pattern, text, flags)]
    makes of a text: [username_pattern] and [pwd_pattern] with [re.I],
    the two prompt terminators with [re.M]. *)
Variables (username_pattern pwd_pattern : string -> bool).
Variables (pri_prompt_terminator alt_prompt_terminator : string -> bool).

Definition login_failed : exn :=
  NetmikoAuthenticationException ("Login failed: " ++ host).

(** The body of the [try] block, up to [i += 1]. *)
Definition login_step (return_msg : string) : M ctl :=
  tick ;;
  output <- read_channel ;;
  let return_msg := return_msg ++ output in
  p <- (if username_pattern output then
          u <- str_add username CR ;;
          write_channel WUser u ;;
          sleep_scaled 10 ;;
          output <- read_channel ;;
          ret (output, return_msg ++ output)
        else ret (output, return_msg)) ;;
  let '(output, return_msg) := p in
  p <- (if pwd_pattern output then
          pw <- assert_str password ;;
          write_channel WPass (pw ++ CR) ;;
          sleep_scaled 30 ;;
          output <- read_channel ;;
          ret (output, return_msg ++ output)
        else ret (output, return_msg)) ;;
  let '(output, return_msg) := p in
  if pri_prompt_terminator output || alt_prompt_terminator output
  then ret (Returned return_msg)
  else ret (Continue return_msg).

(** The [try ... except EOFError] statement. *)
Definition guarded_step (return_msg : string) : M ctl :=
  try_eof (login_step return_msg) (close ;; raise login_failed).

Section Rounds.

(** The local variable [inner_loops], once line 134 has given it its
    value. *)
Variable inner_loops : Z.

(** [while i <= inner_loops]. *)
Fixpoint inner_while (fuel : nat) (i : Z) (return_msg : string) : M ctl :=
  if (i <=? inner_loops)%Z then
    match fuel with
    | O => out_of_fuel
    | S fuel' =>
        r <- guarded_step return_msg ;;
        match r with
        | Returned m => ret (Returned m)
        | Continue m => inner_while fuel' (i + 1) m
        end
    end
  else ret (Continue return_msg).

(** One pass through the body of the [for] loop: the inner loop from
    [i = 1] (the counter is 1 before the first round and is set back to
    1 at the end of each), then the pause.  The write of
    [self.TELNET_RETURN] that the source has at this place is commented
    out. *)
Definition one_round (return_msg : string) : M ctl :=
  r <- inner_while (Z.to_nat inner_loops) 1 return_msg ;;
  match r with
  | Returned m => ret (Returned m)
  | Continue m => sleep_scaled 10 ;; ret (Continue m)
  end.

(** [for _ in range(n)]. *)
Fixpoint outer_for (n : nat) (return_msg : string) : M ctl :=
  match n with
  | O => ret (Continue return_msg)
  | S n' =>
      r <- one_round return_msg ;;
      match r with
      | Returned m => ret (Returned m)
      | Continue m => outer_for n' m
      end
  end.

End Rounds.

(** The statements after the [for] loop. *)
Definition last_try (return_msg : string) : M string :=
  write_channel WEnter TELNET_RETURN ;;
  sleep_scaled 5 ;;
  output <- read_channel ;;
  let return_msg := return_msg ++ output in
  if pri_prompt_terminator output || alt_prompt_terminator output
  then ret return_msg
  else close ;; raise login_failed.

(** [_telnet_login]; the sleeps are recorded as multiples of the delay
    factor that [select_delay_factor] and the [fast_cli] test settle
    on. *)
Definition _telnet_login (max_loops : Z) : M string :=
  sleep_scaled 20 ;;
  match compute_inner_loops max_loops with
  | None => raise OverflowError
  | Some inner_loops =>
      r <- outer_for inner_loops outer_loops EmptyString ;;
      match r with
      | Returned m => ret m
      | Continue m => last_try m
      end
  end.

(** What the round loop leaves in the trace: nothing but reads, credential
    writes and pauses, unless a read met the closed stream; then the close
    follows the failed read, nothing follows the close, and the result is
    the authentication error. *)
Definition round_trace {A} (r : outcome A) (d : list event) : Prop :=
  (r = Raise login_failed /\
   exists d0, d = (d0 ++ [EReadEof; EClose])%list /\ quiet d0)
  \/ (r <> Raise login_failed /\ r <> Raise EOFError /\ quiet d).

End WithSession.

End Telnet.

(* ================================================================== *)
(** * A session for the examples *)
(* ================================================================== *)

Module Example.

(** The tests that [re.search] makes with the default patterns
    [Login Name], [Login Password], [\#\s*$] and [>\s*$], on texts where a
    plain substring test gives the same answer: the texts of the examples
    have the prompts in the letter case of the patterns, and a [#] or [>]
    only before the blanks that end the text. *)
Definition username_search : string -> bool := PyStr.contains "Login Name".
Definition pwd_search : string -> bool := PyStr.contains "Login Password".
Definition pri_search : string -> bool := PyStr.contains "#".
Definition alt_search : string -> bool := PyStr.contains ">".

(** A session of user [admin] with password [secret] on host [pdu], with
    the line terminator CR LF; a round of one attempt. *)
Definition step : string -> M Telnet.ctl :=
  Telnet.login_step (Some "admin") (Some "secret")
    username_search pwd_search pri_search alt_search.


Definition login (max_loops : Z) : M string :=
  Telnet._telnet_login (Some "admin") (Some "secret") "pdu" (CR ++ LF)
    username_search pwd_search pri_search alt_search max_loops.

End Example.

(* ================================================================== *)
(** * What a run shows *)
(* ================================================================== *)

Module Observed.

(** The exception a run ended with, if any. *)
Definition raised {A} (r : outcome A) : option exn :=
  match r with
  | Raise e => Some e
  | _ => None
  end.

(** The texts that the reads of a trace delivered, one after the other. *)
Fixpoint reads_text (d : list event) : string :=
  match d with
  | [] => EmptyString
  | ERead s :: d' => s ++ reads_text d'
  | _ :: d' => reads_text d'
  end.

(** A read that met the closed stream ended the run, as its last event, or
    there was no such read. *)
Definition eof_last (x : option exn) (d : list event) : Prop :=
  (x = Some EOFError /\
   exists d0, d = (d0 ++ [EReadEof])%list /\ count is_eof d0 = 0)
  \/ (x <> Some EOFError /\ count is_eof d = 0).

Section Session.
Variables (username password : option string).

(** A write of the poller: a credential that the session has, or nothing,
    and then [RETURN]. *)
Definition poll_write_ok (RETURN : string) (e : event) : Prop :=
  match e with
  | EWrite WUser s => exists u, username = Some u /\ s = u ++ RETURN
  | EWrite WPass s => exists p, password = Some p /\ s = p ++ RETURN
  | EWrite WEnter s => s = RETURN
  | _ => True
  end.

(** The exceptions of the poller. *)
Definition poll_exn_ok (x : option exn) : Prop :=
  match x with
  | None => True
  | Some e =>
      e = EOFError
      \/ (e = AssertionError /\ (username = None \/ password = None))
      \/ e = NetmikoTimeoutException Poller.timeout_msg
  end.

(** A write of the round loop of the Telnet login: a credential that the
    session has and a carriage return. *)
Definition round_write_ok (e : event) : Prop :=
  match e with
  | EWrite WUser s => exists u, username = Some u /\ s = u ++ CR
  | EWrite WPass s => exists p, password = Some p /\ s = p ++ CR
  | EWrite WEnter _ => False
  | _ => True
  end.

(** The exceptions of the round loop of the Telnet login. *)
Definition round_exn_ok (host : string) (x : option exn) : Prop :=
  match x with
  | None => True
  | Some e =>
      e = Telnet.login_failed host
      \/ (e = TypeError /\ username = None)
      \/ (e = AssertionError /\ password = None)
  end.

(** A write of the whole Telnet login: as in the round loop, or the line
    terminator of the last check. *)
Definition login_write_ok (TELNET_RETURN : string) (e : event) : Prop :=
  match e with
  | EWrite WUser s => exists u, username = Some u /\ s = u ++ CR
  | EWrite WPass s => exists p, password = Some p /\ s = p ++ CR
  | EWrite WEnter s => s = TELNET_RETURN
  | _ => True
  end.

End Session.

(** No occurrence of [sep] in the text [a ++ rest] starts inside [a]. *)
Fixpoint absent_before (sep a rest : string) : bool :=
  match a with
  | EmptyString => true
  | String _ a' => negb (prefix sep (a ++ rest)) && absent_before sep a' rest
  end.

(** The last event of the trace is a read of a text that one of the two
    prompt terminators matches. *)
Definition ends_with_prompt (pri alt : string -> bool) (d : list event) : Prop :=
  exists d0 s, d = (d0 ++ [ERead s])%list /\ pri s || alt s = true.

(** What a stretch [d] of the round loop that started with the transcript
    [rm] and ended with [r] looks like: its writes are credentials, its
    exception is one of the three of the loop, and the transcript it hands
    on or returns is [rm] and all that was read; a returned transcript
    ends with the read of a prompt. *)
Definition round_ok (username password : option string) (host : string)
    (pri alt : string -> bool)
    (rm : string) (r : outcome Telnet.ctl) (d : list event) : Prop :=
  Forall (round_write_ok username password) d
  /\ round_exn_ok username password host (raised r)
  /\ match r with
     | Ok (Telnet.Returned m) =>
         m = rm ++ reads_text d /\ ends_with_prompt pri alt d
     | Ok (Telnet.Continue m) => m = rm ++ reads_text d
     | _ => True
     end.

End Observed.

(* ================================================================== *)
(** * Facts about Python strings *)
(* ================================================================== *)

Module PyStrFacts.
Import PyStr.

Lemma append_nil_r (s : string) : s ++ EmptyString = s.
Proof. induction s as [|c s IH]; simpl; [reflexivity | now rewrite IH]. Qed.

Lemma append_assoc (a b c : string) : (a ++ b) ++ c = a ++ (b ++ c).
Proof. induction a as [|x a IH]; simpl; [reflexivity | now rewrite IH]. Qed.

(** A prefix can be cut off and put back. *)
Lemma prefix_drop (p s : string) :
  prefix p s = true ->
  s = p ++ drop (String.length p) s /\ String.length p <= String.length s.
Proof.
  revert s; induction p as [|a p IH]; intros s H.
  - simpl. split; [reflexivity | lia].
  - destruct s as [|b s]; simpl in H; [discriminate|].
    destruct (ascii_dec a b) as [->|]; [|discriminate].
    destruct (IH s H) as [E L]. simpl. split; [now rewrite <- E | lia].
Qed.

Lemma split_go_nonempty c0 sep' (s : string) :
  forall skip cur, split_go c0 sep' skip cur s <> [].
Proof.
  induction s as [|c s IH]; intros skip cur; cbn [split_go].
  - discriminate.
  - destruct skip; [|apply IH].
    destruct (prefix (String c0 sep') (String c s)); [discriminate | apply IH].
Qed.

Lemma join_cons sep x l : l <> [] -> join sep (x :: l) = x ++ sep ++ join sep l.
Proof. destruct l; [congruence | reflexivity]. Qed.

(** Joining the segments with the separator gives back what the scan
    consumed: the text after the [skip] characters still to be stepped
    over, behind the segment read so far. *)
Lemma split_go_join c0 sep' (s : string) :
  forall skip cur,
    skip <= String.length s ->
    join (String c0 sep') (split_go c0 sep' skip cur s) = cur ++ drop skip s.
Proof.
  induction s as [|c s IH]; intros skip cur Hk.
  - simpl in Hk. assert (skip = 0) as -> by lia. simpl.
    now rewrite append_nil_r.
  - destruct skip as [|k].
    + cbn [split_go drop].
      destruct (prefix (String c0 sep') (String c s)) eqn:E.
      * rewrite join_cons by apply split_go_nonempty.
        simpl in E. destruct (ascii_dec c0 c) as [->|]; [|discriminate].
        destruct (prefix_drop _ _ E) as [Es L].
        rewrite IH by exact L. simpl. now rewrite <- Es.
      * rewrite IH by lia. simpl. rewrite append_assoc. reflexivity.
    + cbn [split_go drop]. apply IH. simpl in Hk. lia.
Qed.

(** [sep.join(s.split(sep)) == s]. *)
Lemma split_join sep s lines :
  split sep s = Some lines -> join sep lines = s.
Proof.
  destruct sep as [|c0 sep']; simpl; [discriminate|].
  intros [= <-]. rewrite split_go_join by lia. reflexivity.
Qed.

Lemma split_nonempty_sep sep s :
  sep <> EmptyString -> exists lines, split sep s = Some lines.
Proof. destruct sep; [congruence | intros _; eexists; reflexivity]. Qed.

End PyStrFacts.

(* ================================================================== *)
(** * Option negotiation *)
(* ================================================================== *)

Module NegotiationFacts.
Import Telnet.

Lemma bytes_eqb_eq (a b : bytes) : bytes_eqb a b = true <-> a = b.
Proof.
  revert b; induction a as [|x a IH]; intros [|y b]; simpl;
    try (split; [discriminate | congruence]); [tauto|].
  rewrite andb_true_iff, IH. split.
  - intros [H ->]. now rewrite (byte_dec_bl _ _ H).
  - intros [= -> ->]. split; [now apply byte_dec_lb | reflexivity].
Qed.

Lemma bytes_eqb_neq (a b : bytes) : bytes_eqb a b = false <-> a <> b.
Proof.
  rewrite <- bytes_eqb_eq. destruct (bytes_eqb a b); split; congruence.
Qed.

(** The order of the tests: the option [ECHO] is answered [IAC DO ECHO]
    whatever the command is; any other option is answered
    [IAC WONT option] for the commands [DO] and [DONT], and
    [IAC DONT option] for [WILL] and [WONT]; for any other command with an
    option other than [ECHO] nothing is sent. *)
Lemma process_option_cases (tsocket : socket) (command option : bytes) :
  (option = ECHO ->
     _process_option tsocket command option
     = (tsocket ++ [[xff; xfd; x01]])%list)
  /\ (option <> ECHO -> command = DO \/ command = DONT ->
     _process_option tsocket command option
     = (tsocket ++ [xff :: xfc :: option])%list)
  /\ (option <> ECHO -> command = WILL \/ command = WONT ->
     _process_option tsocket command option
     = (tsocket ++ [xff :: xfe :: option])%list)
  /\ (option <> ECHO -> ~ In command [DO; DONT; WILL; WONT] ->
     _process_option tsocket command option = tsocket).
Proof.
  unfold _process_option, sendall. repeat split.
  - intros ->. reflexivity.
  - intros Ho Hc. apply bytes_eqb_neq in Ho. rewrite Ho.
    destruct Hc as [-> | ->]; reflexivity.
  - intros Ho Hc. apply bytes_eqb_neq in Ho. rewrite Ho.
    destruct Hc as [-> | ->]; reflexivity.
  - intros Ho Hc. apply bytes_eqb_neq in Ho. rewrite Ho.
    assert (forall c, c <> command -> bytes_eqb command c = false) as N.
    { intros c Hn. apply bytes_eqb_neq. congruence. }
    simpl in Hc.
    rewrite !N by (intros E; apply Hc; rewrite E; tauto). reflexivity.
Qed.

(** C7.  [telnetlib], which calls the responder, passes an option with the
    commands [DO], [DONT], [WILL] and [WONT], and [NOOPT] with every other
    command.  For a pair with one of the four commands exactly one message
    is sent, the one the policy names: [IAC DO ECHO] for the option [ECHO],
    and for any other option [IAC WONT option] after [DO] or [DONT] and
    [IAC DONT option] after [WILL] or [WONT].  For a pair with another
    command, and so with [NOOPT], nothing is sent. *)
Theorem process_option_policy (tsocket : socket) (command option : bytes) :
  (In command [DO; DONT; WILL; WONT] ->
   exists reply,
     _process_option tsocket command option = (tsocket ++ [reply])%list
     /\ ((option = ECHO /\ reply = (IAC ++ DO ++ ECHO)%list)
         \/ (option <> ECHO /\ (command = DO \/ command = DONT)
             /\ reply = (IAC ++ WONT ++ option)%list)
         \/ (option <> ECHO /\ (command = WILL \/ command = WONT)
             /\ reply = (IAC ++ DONT ++ option)%list)))
  /\ (~ In command [DO; DONT; WILL; WONT] -> option = NOOPT ->
      _process_option tsocket command option = tsocket).
Proof.
  destruct (process_option_cases tsocket command option) as (E & D & W & N).
  split.
  - intros Hc. destruct (bytes_eqb option ECHO) eqn:Ho.
    + apply bytes_eqb_eq in Ho. eexists. split; [exact (E Ho)|].
      left. now split.
    + apply bytes_eqb_neq in Ho.
      destruct Hc as [<-|[<-|[<-|[<-|[]]]]]; eexists.
      * split; [apply (D Ho); now left|]. right. left. repeat split; tauto.
      * split; [apply (D Ho); now right|]. right. left. repeat split; tauto.
      * split; [apply (W Ho); now left|]. right. right. repeat split; tauto.
      * split; [apply (W Ho); now right|]. right. right. repeat split; tauto.
  - intros Hc ->. apply N; [discriminate | exact Hc].
Qed.

(** The policy at work on a request to suppress go-ahead (option 3) and on
    the end of a subnegotiation. *)
Lemma process_option_policy_witness :
  (exists reply,
      _process_option [] DO [x03] = ([] ++ [reply])%list
      /\ reply = [xff; xfc; x03])
  /\ _process_option [] SE NOOPT = [].
Proof.
  destruct (process_option_policy [] DO [x03]) as [A _].
  destruct (process_option_policy [] SE NOOPT) as [_ B].
  split.
  - destruct (A (or_introl eq_refl)) as (reply & R & C).
    exists reply. split; [exact R|].
    destruct C as [[C _]|[(_ & _ & ->)|(_ & [C|C] & _)]];
      first [reflexivity | discriminate C].
  - apply B; [|reflexivity].
    simpl. intros [H|[H|[H|[H|[]]]]]; discriminate.
Defined.

End NegotiationFacts.

(* ================================================================== *)
(** * Running the monad symbolically *)
(* ================================================================== *)

Ltac unfold_m :=
  unfold bind, ret, raise, out_of_fuel, read_channel, write_channel, sleep,
    sleep_scaled, close, time, tick, assert_str, str_add, emit in *.

(** Case analysis on the innermost scrutinee of a hypothesis. *)
Ltac break_in H :=
  match type of H with
  | context [match ?x with _ => _ end] =>
      lazymatch x with
      | context [match _ with _ => _ end] => fail
      | _ => destruct x eqn:?
      end
  end.

Ltac run_in H :=
  unfold_m; simpl in H; repeat (break_in H; simpl in H);
  inversion H; subst; clear H; simpl.

(** Name the events that were added to the log. *)
Ltac log_delta :=
  rewrite <- ?app_assoc; simpl;
  first [ eexists; split; [reflexivity|]
        | exists (@nil event); split; [now rewrite app_nil_r|] ].

Lemma count_app p (a b : list event) :
  count p (a ++ b) = count p a + count p b.
Proof. unfold count. now rewrite filter_app, length_app. Qed.

Lemma count_writes_app k (a b : list event) :
  count_writes k (a ++ b) = count_writes k a + count_writes k b.
Proof. apply count_app. Qed.

(* ================================================================== *)
(** * The SSH-style poller *)
(* ================================================================== *)

Module PollerFacts.
Import Poller.

Section WithSession.
Variables (username password : option string) (RETURN : string).

#[local] Abbreviation poll_iter := (poll_iter username password RETURN).
#[local] Abbreviation poll_loop := (poll_loop username password RETURN).
#[local] Abbreviation special_login_handler :=
  (special_login_handler username password RETURN).
#[local] Abbreviation password_last := (password_last password RETURN).

(** One pass through the loop body: it writes the password only as its
    last act, and then it leaves the loop; a pass that goes on has
    slept. *)
Lemma poll_iter_log nd w r w' :
  poll_iter nd w = (r, w') ->
  exists d,
    log w' = (log w ++ d)%list
    /\ ((r = Ok Break /\ password_last d)
        \/ (r <> Ok Break /\ count_writes WPass d = 0))
    /\ r <> Fuel
    /\ (forall nd', r = Ok (Next nd') -> clock w < clock w').
Proof.
  intros H. unfold poll_iter, next_output, truthy in H.
  run_in H; log_delta.
  all: try (split; [right; split; [discriminate | reflexivity]
                   | split; [discriminate | intros; simpl; try lia; discriminate]]).
  all: split; [left; split; [reflexivity|] | split; discriminate].
  all: lazymatch goal with
       | |- Poller.password_last _ _ ?l =>
           exists (removelast l); eexists; repeat split;
             first [eassumption | reflexivity]
       end.
Qed.

Lemma poll_loop_eq fuel start nd w :
  poll_loop fuel start nd w =
  if (clock w - start <? login_timeout)%nat then
    match fuel with
    | O => (Fuel, w)
    | S fuel' =>
        match poll_iter nd w with
        | (Ok Break, w1) => (Ok tt, w1)
        | (Ok (Next nd'), w1) => poll_loop fuel' start nd' w1
        | (Raise e, w1) => (Raise e, w1)
        | (Fuel, w1) => (Fuel, w1)
        end
    end
  else (Raise (NetmikoTimeoutException timeout_msg), w).
Proof.
  destruct fuel; cbn [Poller.poll_loop]; unfold bind at 1, time;
    destruct (clock w - start <? login_timeout)%nat; try reflexivity.
  unfold bind. destruct (poll_iter nd w) as [[[|]| |] ?]; reflexivity.
Qed.

(** The whole loop: the password is written at most once, and only as
    the last event of a run that ends normally. *)
Lemma poll_loop_log fuel :
  forall start nd w r w',
    poll_loop fuel start nd w = (r, w') ->
    exists d,
      log w' = (log w ++ d)%list
      /\ ((r = Ok tt /\ password_last d)
          \/ (r <> Ok tt /\ count_writes WPass d = 0)).
Proof.
  induction fuel as [|fuel IH]; intros start nd w r w' H;
    rewrite poll_loop_eq in H;
    destruct (clock w - start <? login_timeout)%nat.
  1-2, 4: injection H as <- <-; exists []; rewrite app_nil_r;
    (split; [reflexivity | right; split; [discriminate | reflexivity]]).
  destruct (poll_iter nd w) as [r1 w1] eqn:E.
  destruct (poll_iter_log _ _ _ _ E) as (d1 & L1 & P1 & _ & _).
  destruct r1 as [[|nd']| e |].
  - injection H as <- <-. exists d1. split; [exact L1|].
    destruct P1 as [[_ P]|[N _]]; [left; now split | congruence].
  - destruct (IH _ _ _ _ _ H) as (d2 & L2 & P2).
    exists (d1 ++ d2)%list. rewrite L2, L1, app_assoc. split; [reflexivity|].
    destruct P1 as [[N _]|[_ Z1]]; [discriminate|].
    destruct P2 as [[-> (d0 & p & Hp & -> & Z0)]|[N Z2]].
    + left. split; [reflexivity|]. exists (d1 ++ d0)%list, p.
      rewrite app_assoc, count_writes_app, Z1, Z0. now repeat split.
    + right. split; [exact N|]. now rewrite count_writes_app, Z1, Z2.
  - injection H as <- <-. exists d1. split; [exact L1|].
    destruct P1 as [[N _]|[_ Z1]]; [discriminate|].
    right. split; [discriminate | exact Z1].
  - injection H as <- <-. exists d1. split; [exact L1|].
    destruct P1 as [[N _]|[_ Z1]]; [discriminate|].
    right. split; [discriminate | exact Z1].
Qed.

(** The fuel never runs out: [login_timeout] passes are enough from the
    start, because each pass that goes on moves the clock. *)
Lemma poll_loop_terminates fuel :
  forall start nd w,
    start <= clock w ->
    login_timeout <= fuel + (clock w - start) ->
    fst (poll_loop fuel start nd w) <> Fuel.
Proof.
  induction fuel as [|fuel IH]; intros start nd w Hs Hf;
    rewrite poll_loop_eq;
    destruct (clock w - start <? login_timeout)%nat eqn:T;
    try (simpl; discriminate).
  - apply Nat.ltb_lt in T. simpl in Hf. lia.
  - apply Nat.ltb_lt in T.
    destruct (poll_iter nd w) as [r1 w1] eqn:E.
    destruct (poll_iter_log _ _ _ _ E) as (d1 & _ & _ & NF & C).
    destruct r1 as [[|nd']| e |]; try (simpl; discriminate);
      [|congruence].
    specialize (C nd' eq_refl). apply IH; lia.
Qed.

Lemma special_login_handler_eq w :
  special_login_handler w =
  poll_loop login_timeout (clock w + 1) EmptyString
    (mkWorld (pending w) (log w ++ [ESleep (Fixed 1)]) (clock w + 1) (steps w)).
Proof. reflexivity. Qed.

(** C9, as the code has it.  In a pass whose output is not empty the two
    scans are the arms of one [if ... elif]: when the output has the text
    of the username prompt the username and the terminator are written and
    the password scan is not made; only otherwise is the output scanned for
    the text of the password prompt, and then the password and the
    terminator are written and the loop is left; with neither text the pass
    only pauses. *)
Theorem poll_iter_scans_username_else_password nd w output w0 :
  next_output nd w = (Ok output, w0) ->
  output <> EmptyString ->
  (forall u,
      PyStr.contains "Login Name:" output = true ->
      username = Some u ->
      poll_iter nd w =
      (Ok (Next EmptyString),
       mkWorld (pending w0)
               (log w0 ++ [EWrite WUser (u ++ RETURN); ESleep (Fixed 1)])
               (clock w0 + 1) (steps w0)))
  /\ (forall p,
      PyStr.contains "Login Name:" output = false ->
      PyStr.contains "Login Password:" output = true ->
      password = Some p ->
      poll_iter nd w =
      (Ok Break,
       mkWorld (pending w0) (log w0 ++ [EWrite WPass (p ++ RETURN)])
               (clock w0) (steps w0)))
  /\ (PyStr.contains "Login Name:" output = false ->
      PyStr.contains "Login Password:" output = false ->
      poll_iter nd w =
      (Ok (Next EmptyString),
       mkWorld (pending w0) (log w0 ++ [ESleep (Fixed 1)])
               (clock w0 + 1) (steps w0))).
Proof.
  intros H Hne.
  assert (truthy output = true) as T.
  { unfold truthy. apply negb_true_iff, String.eqb_neq, Hne. }
  repeat split.
  - intros u Hn Hu. unfold Poller.poll_iter, bind at 1.
    rewrite H, T, Hn, Hu. unfold_m. simpl. now rewrite <- app_assoc.
  - intros p Hn Hp Hpw. unfold Poller.poll_iter, bind at 1.
    rewrite H, T, Hn, Hp, Hpw. reflexivity.
  - intros Hn Hp. unfold Poller.poll_iter, bind at 1.
    rewrite H, T, Hn, Hp. reflexivity.
Qed.

(** C10.  In one call the password is written at most once, and a password
    write is the last event of the call: the loop is left at once, nothing
    is read, written or slept after it, and the call ends normally.  The
    call always comes to an end. *)
Theorem password_written_at_most_once w :
  exists d,
    log (snd (special_login_handler w)) = (log w ++ d)%list
    /\ count_writes WPass d <= 1
    /\ (count_writes WPass d = 1 ->
        fst (special_login_handler w) = Ok tt /\ password_last d)
    /\ fst (special_login_handler w) <> Fuel.
Proof.
  rewrite special_login_handler_eq.
  set (w1 := mkWorld _ _ _ _).
  assert (fst (poll_loop login_timeout (clock w + 1) EmptyString w1) <> Fuel)
    as NF.
  { apply poll_loop_terminates; subst w1; cbn [clock]; lia. }
  destruct (poll_loop login_timeout (clock w + 1) EmptyString w1)
    as [r w'] eqn:E.
  destruct (poll_loop_log _ _ _ _ _ _ E) as (d & L & P).
  exists (ESleep (Fixed 1) :: d). simpl fst; simpl snd.
  split; [rewrite L; subst w1; simpl; now rewrite <- app_assoc|].
  change (ESleep (Fixed 1) :: d) with ([ESleep (Fixed 1)] ++ d)%list.
  rewrite count_writes_app.
  change (count_writes WPass [ESleep (Fixed 1)]) with 0.
  destruct P as [[-> (d0 & p & Hp & -> & Z)]|[N Z]].
  - rewrite count_writes_app, Z.
    change (count_writes WPass [EWrite WPass (p ++ RETURN)]) with 1.
    split; [lia|]. split; [|exact NF].
    intros _. split; [reflexivity|].
    exists ([ESleep (Fixed 1)] ++ d0)%list, p.
    rewrite count_writes_app, Z, <- app_assoc. now repeat split.
  - rewrite Z. split; [lia|]. split; [|exact NF].
    intros Hc. simpl in Hc. discriminate.
Qed.

End WithSession.

(** A password prompt on its own: the password is written and the loop is
    left. *)
Lemma poll_iter_scans_witness :
  Poller.poll_iter (Some "admin") (Some "secret") CR EmptyString
    (initial [Data "Login Password:"]) =
  (Ok Break,
   mkWorld [] [ERead "Login Password:"; EWrite WPass ("secret" ++ CR)] 0 0).
Proof.
  refine (proj1 (proj2
    (poll_iter_scans_username_else_password (Some "admin") (Some "secret") CR
       EmptyString (initial [Data "Login Password:"]) "Login Password:"
       (mkWorld [] [ERead "Login Password:"] 0 0) _ _)) "secret" _ _ _);
    first [reflexivity | discriminate].
Defined.

(** C9, the claim as stated fails: a chunk with the texts of both prompts
    gets the username only; no password is written in that pass and the
    loop goes on. *)
Lemma poll_iter_both_prompts_username_only :
  PyStr.contains "Login Name:" "Login Name: Login Password:" = true
  /\ PyStr.contains "Login Password:" "Login Name: Login Password:" = true
  /\ Poller.poll_iter (Some "admin") (Some "secret") CR EmptyString
       (initial [Data "Login Name: Login Password:"]) =
     (Ok (Next EmptyString),
      mkWorld [] [ERead "Login Name: Login Password:";
                  EWrite WUser ("admin" ++ CR); ESleep (Fixed 1)] 1 0)
  /\ count_writes WPass
       (log (snd (Poller.poll_iter (Some "admin") (Some "secret") CR EmptyString
                    (initial [Data "Login Name: Login Password:"])))) = 0.
Proof. repeat split. Qed.

(** A call that meets the password prompt at once. *)
Lemma password_written_at_most_once_witness :
  exists d,
    log (snd (Poller.special_login_handler (Some "admin") (Some "secret") CR
                (initial [Data "Login Password:"]))) = ([] ++ d)%list
    /\ count_writes WPass d <= 1.
Proof.
  destruct (password_written_at_most_once (Some "admin") (Some "secret") CR
              (initial [Data "Login Password:"])) as (d & L & C & _).
  exists d. split; [exact L | exact C].
Defined.

(** C2 at a channel that stays silent for the whole budget: the handler
    raises the timeout exception, and the text of its message has the
    placeholder [{login_timeout}] where the number 20 was meant (the
    literal is not an f-string), so the budget is not named. *)
Theorem timeout_message_does_not_name_budget :
  fst (Poller.special_login_handler (Some "admin") (Some "secret") CR
         (initial [])) =
  Raise (NetmikoTimeoutException Poller.timeout_msg)
  /\ PyStr.contains "20" Poller.timeout_msg = false
  /\ PyStr.contains "{login_timeout}" Poller.timeout_msg = true.
Proof. repeat split; vm_compute; reflexivity. Qed.

End PollerFacts.

(* ================================================================== *)
(** * The Telnet login automaton *)
(* ================================================================== *)

Module TelnetFacts.
Import Telnet.

(** If a trace has a single event that passes [p], the place of that event
    is determined. *)
Lemma split_at_only p (x : event) :
  p x = true ->
  forall pre post pre' post',
    count p pre' = 0 -> count p post' = 0 ->
    (pre ++ x :: post = pre' ++ x :: post')%list ->
    pre = pre' /\ post = post'.
Proof.
  intros Hx. induction pre as [|a pre IH]; intros post [|b pre'] post' Z1 Z2 E;
    simpl in E.
  - injection E as <-. now split.
  - injection E as <- ->. unfold count in Z1. simpl in Z1. rewrite Hx in Z1.
    discriminate.
  - injection E as -> <-. rewrite count_app in Z2. unfold count at 2 in Z2.
    simpl in Z2. rewrite Hx in Z2. simpl in Z2. lia.
  - injection E as -> E.
    assert (count p pre' = 0) as Z1'.
    { unfold count in *. simpl in Z1. destruct (p b); simpl in Z1; [lia|exact Z1]. }
    destruct (IH _ _ _ Z1' Z2 E) as [-> ->]. now split.
Qed.

Lemma quiet_app d1 d2 : quiet d1 -> quiet d2 -> quiet (d1 ++ d2).
Proof.
  unfold quiet, count_writes. intros (A1 & B1 & C1) (A2 & B2 & C2).
  rewrite !count_app. lia.
Qed.

Lemma quiet_nil : quiet [].
Proof. now repeat split. Qed.

Section WithSession.
Variables (username password : option string) (host TELNET_RETURN : string).
Variables (username_pattern pwd_pattern : string -> bool).
Variables (pri_prompt_terminator alt_prompt_terminator : string -> bool).

#[local] Abbreviation login_failed := (login_failed host).
#[local] Abbreviation login_step :=
  (login_step username password username_pattern pwd_pattern
     pri_prompt_terminator alt_prompt_terminator).
#[local] Abbreviation guarded_step :=
  (guarded_step username password host username_pattern pwd_pattern
     pri_prompt_terminator alt_prompt_terminator).
#[local] Abbreviation last_try :=
  (last_try host TELNET_RETURN pri_prompt_terminator alt_prompt_terminator).
#[local] Abbreviation round_trace := (round_trace host).

Lemma login_step_log rm w r w' :
  login_step rm w = (r, w') ->
  exists d,
    log w' = (log w ++ d)%list
    /\ steps w' = S (steps w)
    /\ r <> Fuel
    /\ r <> Raise login_failed
    /\ ((r = Raise EOFError /\ exists d0, d = (d0 ++ [EReadEof])%list /\ quiet d0)
        \/ (r <> Raise EOFError /\ quiet d)).
Proof.
  intros H. unfold Telnet.login_step in H.
  run_in H; log_delta.
  all: split; [reflexivity|].
  all: split; [discriminate|].
  all: split; [discriminate|].
  all: first
    [ right; split; [discriminate | now repeat split]
    | left; split; [reflexivity|];
      lazymatch goal with
      | |- exists d0, ?l = _ /\ _ =>
          exists (removelast l); split; [reflexivity | now repeat split]
      end ].
Qed.

Lemma round_trace_ok_quiet {A} (a : A) d : round_trace (Ok a) d -> quiet d.
Proof. intros [[E _]|(_ & _ & Q)]; [discriminate | exact Q]. Qed.

Lemma round_trace_app {A} (r : outcome A) d1 d2 :
  quiet d1 -> round_trace r d2 -> round_trace r (d1 ++ d2).
Proof.
  intros Q1 [[E (d0 & -> & Q0)]|(N1 & N2 & Q2)].
  - left. split; [exact E|]. exists (d1 ++ d0)%list.
    split; [now rewrite app_assoc | now apply quiet_app].
  - right. repeat split; try assumption; now apply quiet_app.
Qed.

Lemma round_trace_raise {A B} e d :
  @Telnet.round_trace host A (Raise e) d ->
  @Telnet.round_trace host B (Raise e) d.
Proof.
  intros [[E P]|(N1 & N2 & Q)].
  - left. injection E as ->. split; [reflexivity | exact P].
  - right. split; [|split; [|exact Q]]; intros [= ->]; now (apply N1 || apply N2).
Qed.

Lemma guarded_step_log rm w r w' :
  guarded_step rm w = (r, w') ->
  exists d,
    log w' = (log w ++ d)%list
    /\ steps w' = S (steps w)
    /\ r <> Fuel
    /\ round_trace r d.
Proof.
  unfold Telnet.guarded_step, try_eof. intros H.
  destruct (login_step rm w) as [r1 w1] eqn:E.
  destruct (login_step_log _ _ _ _ E) as (d & L & S1 & NF & NL & P).
  assert (r1 <> Raise EOFError ->
          (r, w') = (r1, w1) ->
          exists d0, log w' = (log w ++ d0)%list /\ steps w' = S (steps w)
                     /\ r <> Fuel /\ round_trace r d0) as Same.
  { intros NE [= -> ->]. exists d. repeat split; try assumption.
    destruct P as [[E1 _]|[_ Q]]; [congruence|].
    right. split; [exact NL | split; [exact NE | exact Q]]. }
  destruct r1 as [c|e|]; try (apply Same; [discriminate | now rewrite H]).
  destruct e; try (apply Same; [discriminate | now rewrite H]).
  unfold_m. simpl in H. injection H as <- <-. simpl.
  destruct P as [[_ (d0 & -> & Q)]|[N _]]; [|congruence].
  exists (d0 ++ [EReadEof; EClose])%list. rewrite L, <- !app_assoc.
  repeat split; try assumption; try discriminate.
  left. split; [reflexivity|]. now exists d0.
Qed.

(** ** The round loop, for any value of [inner_loops] *)

Section Rounds.
Variable inner_loops : Z.

#[local] Abbreviation inner_while :=
  (inner_while username password host username_pattern pwd_pattern
     pri_prompt_terminator alt_prompt_terminator inner_loops).
#[local] Abbreviation one_round :=
  (one_round username password host username_pattern pwd_pattern
     pri_prompt_terminator alt_prompt_terminator inner_loops).
#[local] Abbreviation outer_for :=
  (outer_for username password host username_pattern pwd_pattern
     pri_prompt_terminator alt_prompt_terminator inner_loops).

Lemma inner_while_eq fuel i rm w :
  inner_while fuel i rm w =
  if (i <=? inner_loops)%Z then
    match fuel with
    | O => (Fuel, w)
    | S fuel' =>
        match guarded_step rm w with
        | (Ok (Returned m), w1) => (Ok (Returned m), w1)
        | (Ok (Continue m), w1) => inner_while fuel' (i + 1) m w1
        | (Raise e, w1) => (Raise e, w1)
        | (Fuel, w1) => (Fuel, w1)
        end
    end
  else (Ok (Continue rm), w).
Proof.
  destruct fuel; cbn [Telnet.inner_while];
    destruct (i <=? inner_loops)%Z; try reflexivity.
  unfold bind. destruct (guarded_step rm w) as [[[|]| |] ?]; reflexivity.
Qed.

(** The inner loop from the counter value [i]: at most
    [inner_loops + 1 - i] steps, and that much fuel is enough. *)
Lemma inner_while_log fuel :
  forall i rm w r w',
    inner_while fuel i rm w = (r, w') ->
    exists d,
      log w' = (log w ++ d)%list
      /\ round_trace r d
      /\ steps w' <= steps w + Z.to_nat (inner_loops + 1 - i)
      /\ (Z.to_nat (inner_loops + 1 - i) <= fuel -> r <> Fuel).
Proof.
  induction fuel as [|fuel IH]; intros i rm w r w' H;
    rewrite inner_while_eq in H;
    destruct (i <=? inner_loops)%Z eqn:T.
  1-2, 4: injection H as <- <-; exists []; rewrite app_nil_r;
    (split; [reflexivity|]);
    (split; [right; split; [discriminate | split; [discriminate | apply quiet_nil]]|]);
    (split; [lia|]); try discriminate.
  - apply Z.leb_le in T. lia.
  - apply Z.leb_le in T.
    destruct (guarded_step rm w) as [r1 w1] eqn:E.
    destruct (guarded_step_log _ _ _ _ E) as (d1 & L1 & S1 & NF1 & P1).
    destruct r1 as [[m|m]|e|]; [| |injection H as <- <-..].
    + injection H as <- <-. exists d1. repeat split; try assumption; try lia.
      discriminate.
    + destruct (IH _ _ _ _ _ H) as (d2 & L2 & P2 & S2 & NF2).
      exists (d1 ++ d2)%list. rewrite L2, L1, app_assoc.
      split; [reflexivity|].
      split; [apply round_trace_app; [eapply round_trace_ok_quiet; eauto | exact P2]|].
      split; [lia|]. intros F. apply NF2. lia.
    + exists d1. repeat split; try assumption; try lia. discriminate.
    + congruence.
Qed.

Lemma one_round_log rm w r w' :
  one_round rm w = (r, w') ->
  exists d,
    log w' = (log w ++ d)%list
    /\ round_trace r d
    /\ steps w' <= steps w + Z.to_nat (inner_loops)
    /\ r <> Fuel
    /\ (forall m, r = Ok (Continue m) ->
        exists d0, d = (d0 ++ [ESleep (Scaled 10)])%list).
Proof.
  unfold Telnet.one_round, bind at 1. intros H.
  destruct (inner_while _ 1 rm w) as [r1 w1] eqn:E.
  destruct (inner_while_log _ _ _ _ _ _ E) as (d & L & P & S1 & NF).
  replace (inner_loops + 1 - 1)%Z with (inner_loops) in *
    by lia.
  specialize (NF (le_n _)).
  destruct r1 as [[m|m]|e|]; [| |injection H as <- <-..].
  - injection H as <- <-. exists d. repeat split; try assumption; discriminate.
  - unfold_m. simpl in H. injection H as <- <-. simpl.
    exists (d ++ [ESleep (Scaled 10)])%list. rewrite L, <- app_assoc.
    split; [reflexivity|].
    split; [right; split; [discriminate | split; [discriminate|]];
            apply quiet_app; [eapply round_trace_ok_quiet; eauto | now repeat split]|].
    split; [exact S1|]. split; [discriminate|]. intros ? _. now exists d.
  - exists d. repeat split; try assumption; discriminate.
  - congruence.
Qed.

Lemma outer_for_eq n rm w :
  outer_for (S n) rm w =
  match one_round rm w with
  | (Ok (Returned m), w1) => (Ok (Returned m), w1)
  | (Ok (Continue m), w1) => outer_for n m w1
  | (Raise e, w1) => (Raise e, w1)
  | (Fuel, w1) => (Fuel, w1)
  end.
Proof.
  cbn [Telnet.outer_for]. unfold bind at 1.
  destruct (one_round rm w) as [[[|]| |] ?]; reflexivity.
Qed.

Lemma outer_for_log n :
  forall rm w r w',
    outer_for n rm w = (r, w') ->
    exists d,
      log w' = (log w ++ d)%list
      /\ round_trace r d
      /\ steps w' <= steps w + n * Z.to_nat (inner_loops)
      /\ r <> Fuel.
Proof.
  induction n as [|n IH]; intros rm w r w' H.
  - injection H as <- <-. exists []. rewrite app_nil_r.
    repeat split; try lia; try discriminate.
    right. split; [discriminate | split; [discriminate | apply quiet_nil]].
  - rewrite outer_for_eq in H.
    destruct (one_round rm w) as [r1 w1] eqn:E.
    destruct (one_round_log _ _ _ _ E) as (d1 & L1 & P1 & S1 & NF1 & _).
    destruct r1 as [[m|m]|e|]; [| |injection H as <- <-..].
    + injection H as <- <-. exists d1. repeat split; try assumption; lia.
    + destruct (IH _ _ _ _ H) as (d2 & L2 & P2 & S2 & NF2).
      exists (d1 ++ d2)%list. rewrite L2, L1, app_assoc.
      split; [reflexivity|].
      split; [apply round_trace_app; [eapply round_trace_ok_quiet; eauto | exact P2]|].
      split; [lia | exact NF2].
    + exists d1. repeat split; try assumption; lia.
    + congruence.
Qed.


End Rounds.

Lemma last_try_eq rm w :
  last_try rm w =
  let before := (log w ++ [EWrite WEnter TELNET_RETURN; ESleep (Scaled 5)])%list in
  match buffered w with
  | Eof =>
      (Raise EOFError,
       mkWorld (tl (pending w)) (before ++ [EReadEof]) (clock w) (steps w))
  | Data s =>
      if pri_prompt_terminator s || alt_prompt_terminator s
      then (Ok (rm ++ s),
            mkWorld (tl (pending w)) (before ++ [ERead s]) (clock w) (steps w))
      else (Raise login_failed,
            mkWorld (tl (pending w)) (before ++ [ERead s; EClose])
                    (clock w) (steps w))
  end.
Proof.
  unfold Telnet.last_try, buffered. unfold_m. simpl.
  destruct (pending w) as [|[s|] rest]; simpl;
    rewrite <- ?app_assoc; simpl; try reflexivity.
  - destruct (pri_prompt_terminator EmptyString || alt_prompt_terminator EmptyString);
      simpl; rewrite <- ?app_assoc; reflexivity.
  - destruct (pri_prompt_terminator s || alt_prompt_terminator s);
      simpl; rewrite <- ?app_assoc; reflexivity.
Qed.

Lemma last_try_log rm w :
  exists t,
    log (snd (last_try rm w)) =
    (log w ++ [EWrite WEnter TELNET_RETURN; ESleep (Scaled 5)] ++ t)%list
    /\ (t = [EReadEof] \/ count is_eof t = 0).
Proof.
  rewrite last_try_eq. cbv zeta.
  destruct (buffered w) as [s|];
    [destruct (pri_prompt_terminator s || alt_prompt_terminator s)|];
    simpl; rewrite <- app_assoc; eexists; (split; [reflexivity|]);
    first [left; reflexivity | right; reflexivity].
Qed.

Lemma count_eof_split (l pre post : list event) :
  l = (pre ++ EReadEof :: post)%list ->
  count is_eof l = count is_eof pre + 1 + count is_eof post.
Proof.
  intros ->. rewrite count_app.
  change (EReadEof :: post) with ([EReadEof] ++ post)%list.
  rewrite count_app. change (count is_eof [EReadEof]) with 1. lia.
Qed.

(** C1, as the code has it.  A chunk that matches the username pattern
    gets the username and a carriage return, a pause and a second read; the
    password pattern is then tested on that second read, not on the chunk.
    So the password (with its carriage return) is written in the same step,
    after the username, exactly when the second read matches the password
    pattern. *)
Theorem username_then_password_on_reread rm w chunk o rest u :
  pending w = Data chunk :: Data o :: rest ->
  username_pattern chunk = true ->
  username = Some u ->
  exists tail,
    log (snd (login_step rm w)) =
    (log w ++ [ERead chunk; EWrite WUser (u ++ CR); ESleep (Scaled 10); ERead o]
           ++ tail)%list
    /\ (pwd_pattern o = false -> tail = [])
    /\ (forall p, pwd_pattern o = true -> password = Some p ->
        exists tail',
          tail = EWrite WPass (p ++ CR) :: ESleep (Scaled 30) :: tail').
Proof.
  intros Hp Hu ->. destruct w as [pend lg ck st]. simpl in Hp. subst pend.
  unfold Telnet.login_step. unfold_m. simpl. rewrite Hu. simpl.
  destruct (pwd_pattern o) eqn:Po; simpl.
  - destruct password as [p|]; simpl.
    + destruct rest as [|[s|] rest']; simpl;
        try destruct (pri_prompt_terminator _ || alt_prompt_terminator _);
        simpl; rewrite <- ?app_assoc; simpl;
        (eexists; split; [reflexivity|]);
        (split; [discriminate|]); intros p' _ [= <-]; eexists; reflexivity.
    + rewrite <- ?app_assoc; simpl. exists [].
      split; [reflexivity|]. split; [discriminate|]. intros p' _ [=].
  - destruct (pri_prompt_terminator o || alt_prompt_terminator o);
      simpl; rewrite <- ?app_assoc; simpl;
      (exists []; split; [reflexivity|]);
      (split; [reflexivity|]); intros p' [=].
Qed.

(** ** The whole call *)

Variable max_loops : Z.

#[local] Abbreviation _telnet_login :=
  (_telnet_login username password host TELNET_RETURN username_pattern
     pwd_pattern pri_prompt_terminator alt_prompt_terminator max_loops).
#[local] Abbreviation one_round il :=
  (one_round username password host username_pattern pwd_pattern
     pri_prompt_terminator alt_prompt_terminator il).
#[local] Abbreviation rounds il :=
  (outer_for username password host username_pattern pwd_pattern
     pri_prompt_terminator alt_prompt_terminator il outer_loops EmptyString).

Lemma telnet_login_eq w :
  _telnet_login w =
  match compute_inner_loops max_loops with
  | None => (Raise OverflowError, emit (ESleep (Scaled 20)) w)
  | Some il =>
      match rounds il (emit (ESleep (Scaled 20)) w) with
      | (Ok (Returned m), w1) => (Ok m, w1)
      | (Ok (Continue m), w1) => last_try m w1
      | (Raise e, w1) => (Raise e, w1)
      | (Fuel, w1) => (Fuel, w1)
      end
  end.
Proof.
  unfold Telnet._telnet_login, bind at 1, sleep_scaled.
  destruct (compute_inner_loops max_loops) as [il|]; [|reflexivity].
  unfold bind at 1.
  destruct (rounds il _) as [[[|]| |] ?]; reflexivity.
Qed.

(** The whole call, by the way it went: the division of line 134
    overflowed; or the round loop returned or raised; or the round loop
    was used up and the last check ended in one of its three ways. *)
Lemma call_shape w r w' :
  _telnet_login w = (r, w') ->
  (compute_inner_loops max_loops = None
   /\ r = Raise OverflowError
   /\ log w' = (log w ++ [ESleep (Scaled 20)])%list
   /\ steps w' = steps w)
  \/ exists il r1 w1 d,
      compute_inner_loops max_loops = Some il
      /\ rounds il (emit (ESleep (Scaled 20)) w) = (r1, w1)
      /\ log w1 = (log w ++ [ESleep (Scaled 20)] ++ d)%list
      /\ round_trace r1 d
      /\ steps w1 <= steps w + outer_loops * Z.to_nat il
      /\ steps w' = steps w1
      /\ ((exists m, r1 = Ok (Returned m) /\ r = Ok m /\ w' = w1)
          \/ (exists e, r1 = Raise e /\ r = Raise e /\ w' = w1)
          \/ (exists m t,
                r1 = Ok (Continue m)
                /\ log w' =
                   (log w1 ++ [EWrite WEnter TELNET_RETURN; ESleep (Scaled 5)]
                           ++ t)%list
                /\ ((t = [EReadEof] /\ buffered w1 = Eof
                     /\ r = Raise EOFError)
                    \/ (exists s,
                          t = [ERead s] /\ buffered w1 = Data s
                          /\ pri_prompt_terminator s || alt_prompt_terminator s
                             = true
                          /\ r = Ok (m ++ s))
                    \/ (exists s,
                          t = [ERead s; EClose] /\ buffered w1 = Data s
                          /\ pri_prompt_terminator s || alt_prompt_terminator s
                             = false
                          /\ r = Raise login_failed)))).
Proof.
  rewrite telnet_login_eq.
  destruct (compute_inner_loops max_loops) as [il|] eqn:Hil.
  2: { intros [= <- <-]. left. now repeat split. }
  destruct (rounds il (emit (ESleep (Scaled 20)) w)) as [r1 w1] eqn:E.
  destruct (outer_for_log il _ _ _ _ _ E) as (d & L & T & S1 & NF).
  simpl in L, S1. rewrite <- app_assoc in L.
  intros H. right. exists il, r1, w1, d.
  do 5 (split; [first [reflexivity | assumption]|]).
  destruct r1 as [[m|m]|e|]; [| | |congruence].
  - injection H as <- <-. split; [reflexivity|]. left. now exists m.
  - rewrite last_try_eq in H. cbv zeta in H.
    destruct (buffered w1) as [s|] eqn:B.
    + destruct (pri_prompt_terminator s || alt_prompt_terminator s) eqn:Q;
        injection H as <- <-; (split; [reflexivity|]); right; right;
        exists m; simpl; rewrite <- !app_assoc; simpl.
      * exists [ERead s]. repeat split. right. left. now exists s.
      * exists [ERead s; EClose]. repeat split. right. right. now exists s.
    + injection H as <- <-. split; [reflexivity|]. right. right.
      exists m, [EReadEof]. simpl. rewrite <- !app_assoc. simpl.
      repeat split. now left.
  - injection H as <- <-. split; [reflexivity|]. right. left. now exists e.
Qed.


(** C5, as the code has it.  With [inner_loops] the value that line 134
    computes, the call makes at most [outer_loops] times [inner_loops]
    read/react steps when that value is positive and none when it is zero
    or negative, whatever the channel delivers: so many at most when the
    round loop is over, and no more in the whole call, since the last check
    adds none.  When the division of line 134 overflows no step is made.
    The call always comes to an end. *)
Theorem round_budget_conservation w :
  (forall il,
      compute_inner_loops max_loops = Some il ->
      (Z.of_nat (steps (snd (rounds il (emit (ESleep (Scaled 20)) w)))
                 - steps w)
       <= Z.of_nat outer_loops * Z.max 0 il)%Z
      /\ (Z.of_nat (steps (snd (_telnet_login w)) - steps w)
          <= Z.of_nat outer_loops * Z.max 0 il)%Z)
  /\ (compute_inner_loops max_loops = None ->
      steps (snd (_telnet_login w)) = steps w)
  /\ fst (_telnet_login w) <> Fuel.
Proof.
  destruct (_telnet_login w) as [r w'] eqn:E. cbn [fst snd].
  destruct (call_shape _ _ _ E)
    as [(Hil & -> & _ & S)|(il & r1 & w1 & d & Hil & R & _ & _ & S1 & S2 & C)].
  - split; [intros il Hs; congruence|]. split; [intros _; exact S | discriminate].
  - split; [|split; [congruence|]].
    + intros il' Hs. assert (il' = il) as -> by congruence.
      rewrite R. cbn [snd]. unfold outer_loops in *. lia.
    + destruct C as [(m & _ & -> & _)|[(e & -> & -> & _)|(m & t & _ & _ & C)]];
        try discriminate.
      destruct C as [(_ & _ & ->)|[(s & _ & _ & _ & ->)|(s & _ & _ & _ & ->)]];
        discriminate.
Qed.

(** A read that meets the closed stream inside the round loop, that is
    before the line terminator of the last check has been written, is
    followed at once by the close of the connection; no further event
    follows, and the call raises the authentication error that names the
    host. *)
Lemma eof_in_round_closes_and_fails w pre post :
  log (snd (_telnet_login w)) = (log w ++ pre ++ EReadEof :: post)%list ->
  count_writes WEnter pre = 0 ->
  fst (_telnet_login w) = Raise login_failed /\ post = [EClose].
Proof.
  destruct (_telnet_login w) as [r w'] eqn:E. cbn [fst snd].
  intros H Hpre.
  destruct (call_shape _ _ _ E)
    as [(_ & _ & L & _)|(il & r1 & w1 & d & _ & _ & L & T & _ & _ & S)].
  { exfalso. rewrite L in H. apply app_inv_head in H.
    apply count_eof_split in H. unfold count in H; simpl in H; lia. }
  destruct S as [(m & -> & -> & ->)|[(e & -> & -> & ->)|(m & t & -> & L' & S)]].
  - exfalso. rewrite L in H. apply app_inv_head in H.
    apply count_eof_split in H. rewrite count_app in H.
    apply round_trace_ok_quiet in T. destruct T as (_ & Z & _).
    rewrite Z in H. unfold count in H; simpl in H; lia.
  - destruct (round_trace_raise (B:=string) _ _ T)
      as [[E1 (d0 & -> & (_ & Z & _))]|(_ & _ & (_ & Z & _))].
    + split; [exact E1|].
      rewrite L in H. apply app_inv_head in H. symmetry in H.
      assert ((pre ++ EReadEof :: post)%list
              = (([ESleep (Scaled 20)] ++ d0) ++ EReadEof :: [EClose])%list) as H'
        by (rewrite H, <- ?app_assoc; reflexivity).
      apply (split_at_only is_eof EReadEof eq_refl) in H';
        [|rewrite !count_app, Z; reflexivity | reflexivity].
      now destruct H'.
    + exfalso. rewrite L in H. apply app_inv_head in H.
      apply count_eof_split in H. rewrite count_app, Z in H. unfold count in H; simpl in H; lia.
  - exfalso. apply round_trace_ok_quiet in T. destruct T as (Zw & Z & _).
    rewrite L', L, <- !app_assoc in H. apply app_inv_head in H.
    destruct S as [(-> & _)|[(s & -> & _)|(s & -> & _)]].
    + symmetry in H.
      assert ((pre ++ EReadEof :: post)%list
              = (([ESleep (Scaled 20)] ++ d
                    ++ [EWrite WEnter TELNET_RETURN; ESleep (Scaled 5)])
                   ++ EReadEof :: [])%list) as H'
        by (rewrite H, <- ?app_assoc; reflexivity).
      apply (split_at_only is_eof EReadEof eq_refl) in H';
        [|rewrite !count_app, Z; reflexivity | reflexivity].
      destruct H' as [-> _]. unfold count_writes in Hpre, Zw.
      rewrite !count_app, Zw in Hpre. simpl in Hpre. discriminate.
    + apply count_eof_split in H. rewrite !count_app, Z in H. unfold count in H; simpl in H; lia.
    + apply count_eof_split in H. rewrite !count_app, Z in H. unfold count in H; simpl in H; lia.
Qed.

(** When the rounds are used up without success and the last read delivers
    a text, the automaton has made one more check: it has written the line
    terminator, paused half a delay unit, read once and appended what it
    read to the transcript; it returns the transcript if one of the two
    terminator patterns matches that read, and otherwise closes the
    connection and raises the authentication error. *)
Lemma last_ditch_check il w rm w1 s :
  compute_inner_loops max_loops = Some il ->
  rounds il (emit (ESleep (Scaled 20)) w) = (Ok (Continue rm), w1) ->
  buffered w1 = Data s ->
  let w2 :=
    mkWorld (tl (pending w1))
            (log w1 ++ [EWrite WEnter TELNET_RETURN; ESleep (Scaled 5); ERead s])
            (clock w1) (steps w1) in
  _telnet_login w =
  if pri_prompt_terminator s || alt_prompt_terminator s
  then (Ok (rm ++ s), w2)
  else (Raise login_failed, emit EClose w2).
Proof.
  intros Hil H B w2. rewrite telnet_login_eq, Hil, H, last_try_eq, B. cbv zeta.
  subst w2. unfold emit. simpl. rewrite <- !app_assoc. simpl.
  reflexivity.
Qed.

(** C8, where the code departs from it.  When the rounds are used up
    without success and the read of the last check meets the closed
    stream, the call ends with the bare [EOFError] of that read: the
    transcript is not returned, the connection is not closed and no
    authentication error is raised. *)
Theorem last_check_on_closed_stream il w rm w1 :
  compute_inner_loops max_loops = Some il ->
  rounds il (emit (ESleep (Scaled 20)) w) = (Ok (Continue rm), w1) ->
  buffered w1 = Eof ->
  _telnet_login w =
  (Raise EOFError,
   mkWorld (tl (pending w1))
           (log w1 ++ [EWrite WEnter TELNET_RETURN; ESleep (Scaled 5); EReadEof])
           (clock w1) (steps w1)).
Proof.
  intros Hil H B. rewrite telnet_login_eq, Hil, H, last_try_eq, B. cbv zeta.
  rewrite <- !app_assoc. reflexivity.
Qed.

End WithSession.

(** A username prompt, then a password prompt on the second read of the
    same step. *)
Lemma username_then_password_on_reread_witness :
  exists tail,
    log (snd (Example.step EmptyString
                (initial [Data "Login Name:"; Data "Login Password:"]))) =
    ([] ++ [ERead "Login Name:"; EWrite WUser ("admin" ++ CR);
            ESleep (Scaled 10); ERead "Login Password:"] ++ tail)%list
    /\ (Example.pwd_search "Login Password:" = false -> tail = [])
    /\ (forall p, Example.pwd_search "Login Password:" = true ->
        Some "secret" = Some p ->
        exists tail',
          tail = EWrite WPass (p ++ CR) :: ESleep (Scaled 30) :: tail').
Proof.
  exact (username_then_password_on_reread (Some "admin") (Some "secret")
           Example.username_search Example.pwd_search
           Example.pri_search Example.alt_search EmptyString
           (initial [Data "Login Name:"; Data "Login Password:"])
           "Login Name:" "Login Password:" [] "admin"
           eq_refl eq_refl eq_refl).
Defined.

(** C1, the claim as stated fails: a chunk that matches both patterns,
    followed by an empty second read, gets the username only; the step ends
    without a password write. *)
Lemma both_prompts_in_chunk_username_only :
  Example.username_search "Login Name: Login Password:" = true
  /\ Example.pwd_search "Login Name: Login Password:" = true
  /\ Example.step EmptyString (initial [Data "Login Name: Login Password:"]) =
     (Ok (Telnet.Continue "Login Name: Login Password:"),
      mkWorld [] [ERead "Login Name: Login Password:";
                  EWrite WUser ("admin" ++ CR); ESleep (Scaled 10);
                  ERead EmptyString] 0 1)
  /\ count_writes WPass
       (log (snd (Example.step EmptyString
                    (initial [Data "Login Name: Login Password:"])))) = 0.
Proof. repeat split. Qed.



(** The default budget of 20 attempts on a silent channel. *)
Lemma round_budget_conservation_witness :
  (Z.of_nat (steps (snd (Example.login 20 (initial []))) - 0)
   <= Z.of_nat Telnet.outer_loops * Z.max 0 6)%Z.
Proof.
  exact (proj2 (proj1
    (round_budget_conservation (Some "admin") (Some "secret") "pdu" (CR ++ LF)
       Example.username_search Example.pwd_search
       Example.pri_search Example.alt_search 20 (initial [])) 6%Z eq_refl)).
Defined.

(** C5, the claim as stated fails: with a budget of -3 the value of
    [inner_loops] is -1, so that the bound of the claim is -3, while the
    number of steps made, none, is not below zero. *)
Lemma budget_bound_fails_for_negative_budget :
  Telnet.compute_inner_loops (-3) = Some (-1)%Z
  /\ steps (snd (Example.login (-3) (initial []))) = 0
  /\ ~ (Z.of_nat (steps (snd (Example.login (-3) (initial []))) - 0)
        <= Z.of_nat Telnet.outer_loops * -1)%Z.
Proof.
  split; [reflexivity|]. split; [reflexivity|].
  intros H. vm_compute in H. apply H. reflexivity.
Qed.

(** The stream closes at the read of the second round. *)
Lemma eof_in_round_closes_and_fails_witness :
  fst (Example.login 3 (initial [Data EmptyString; Eof])) =
  Raise (Telnet.login_failed "pdu")
  /\ [EClose] = [EClose].
Proof.
  exact (eof_in_round_closes_and_fails (Some "admin") (Some "secret") "pdu"
           (CR ++ LF) Example.username_search Example.pwd_search
           Example.pri_search Example.alt_search 3
           (initial [Data EmptyString; Eof])
           [ESleep (Scaled 20); ERead EmptyString; ESleep (Scaled 10)]
           [EClose] eq_refl eq_refl).
Defined.

(** C6, where the code departs from it: when the stream closes at the read
    of the last check, which is outside the [try] statement, the
    [EOFError] leaves the function as it is; the connection is not closed
    and no authentication error is raised. *)
Theorem eof_at_last_check_not_handled :
  Example.login 3
    (initial [Data EmptyString; Data EmptyString; Data EmptyString; Eof]) =
  (Raise EOFError,
   mkWorld []
     [ESleep (Scaled 20);
      ERead EmptyString; ESleep (Scaled 10);
      ERead EmptyString; ESleep (Scaled 10);
      ERead EmptyString; ESleep (Scaled 10);
      EWrite WEnter (CR ++ LF); ESleep (Scaled 5); EReadEof] 0 3)
  /\ count is_close
       (log (snd (Example.login 3
          (initial [Data EmptyString; Data EmptyString; Data EmptyString; Eof]))))
     = 0.
Proof. split; reflexivity. Qed.

(** The prompt arrives one beat late: three silent rounds, then the last
    check reads it and the transcript is returned. *)
Lemma last_ditch_check_witness :
  Example.login 3
    (initial [Data EmptyString; Data EmptyString; Data EmptyString; Data "pdu> "]) =
  (Ok "pdu> ",
   mkWorld []
     [ESleep (Scaled 20);
      ERead EmptyString; ESleep (Scaled 10);
      ERead EmptyString; ESleep (Scaled 10);
      ERead EmptyString; ESleep (Scaled 10);
      EWrite WEnter (CR ++ LF); ESleep (Scaled 5); ERead "pdu> "] 0 3).
Proof.
  exact (last_ditch_check (Some "admin") (Some "secret") "pdu" (CR ++ LF)
           Example.username_search Example.pwd_search
           Example.pri_search Example.alt_search 3 1
           (initial [Data EmptyString; Data EmptyString; Data EmptyString;
                     Data "pdu> "])
           EmptyString
           (mkWorld [Data "pdu> "]
              [ESleep (Scaled 20);
               ERead EmptyString; ESleep (Scaled 10);
               ERead EmptyString; ESleep (Scaled 10);
               ERead EmptyString; ESleep (Scaled 10)] 0 3)
           "pdu> " eq_refl eq_refl eq_refl).
Defined.

(** A budget of six attempts on a channel that stays silent for the six
    attempts made and is closed when the last check reads. *)
Lemma last_check_on_closed_stream_witness :
  Example.login 6
    (initial [Data EmptyString; Data EmptyString; Data EmptyString;
              Data EmptyString; Data EmptyString; Data EmptyString; Eof]) =
  (Raise EOFError,
   mkWorld []
     ([ESleep (Scaled 20);
       ERead EmptyString; ERead EmptyString; ESleep (Scaled 10);
       ERead EmptyString; ERead EmptyString; ESleep (Scaled 10);
       ERead EmptyString; ERead EmptyString; ESleep (Scaled 10)]
        ++ [EWrite WEnter (CR ++ LF); ESleep (Scaled 5); EReadEof])
     0 6).
Proof.
  refine (last_check_on_closed_stream (Some "admin") (Some "secret") "pdu"
            (CR ++ LF) Example.username_search Example.pwd_search
            Example.pri_search Example.alt_search 6 2
            (initial [Data EmptyString; Data EmptyString; Data EmptyString;
                      Data EmptyString; Data EmptyString; Data EmptyString;
                      Eof])
            EmptyString
            (mkWorld [Eof]
               [ESleep (Scaled 20);
                ERead EmptyString; ERead EmptyString; ESleep (Scaled 10);
                ERead EmptyString; ERead EmptyString; ESleep (Scaled 10);
                ERead EmptyString; ERead EmptyString; ESleep (Scaled 10)]
               0 6)
            _ _ _); vm_compute; reflexivity.
Defined.

End TelnetFacts.

(* ================================================================== *)
(** * More on the SSH-style poller *)
(* ================================================================== *)

Module PollerMore.
Import Poller Observed.

Lemma eof_last_app x d1 d2 :
  count is_eof d1 = 0 -> eof_last x d2 -> eof_last x (d1 ++ d2).
Proof.
  intros Z1 [[E (d0 & -> & Z0)]|[N Z2]].
  - left. split; [exact E|]. exists (d1 ++ d0)%list.
    split; [now rewrite app_assoc | rewrite count_app; lia].
  - right. split; [exact N | rewrite count_app; lia].
Qed.

Lemma eof_last_quiet x d : x <> Some EOFError -> eof_last x d -> count is_eof d = 0.
Proof. intros N [[E _]|[_ Z]]; [congruence | exact Z]. Qed.

Section WithSession.
Variables (username password : option string) (RETURN : string).

#[local] Abbreviation poll_iter := (poll_iter username password RETURN).
#[local] Abbreviation poll_loop := (poll_loop username password RETURN).
#[local] Abbreviation special_login_handler :=
  (special_login_handler username password RETURN).
#[local] Abbreviation write_ok := (poll_write_ok username password RETURN).
#[local] Abbreviation exn_ok := (poll_exn_ok username password).

Ltac write_ok_list :=
  repeat (apply Forall_cons;
          [first [exact I | reflexivity
                 | eexists; split; [first [eassumption | reflexivity] | reflexivity]]|]);
  apply Forall_nil.

Ltac eof_last_list :=
  first
    [ right; split; [discriminate | reflexivity]
    | left; split; [reflexivity|];
      lazymatch goal with
      | |- exists d0, ?l = _ /\ _ =>
          exists (removelast l); split; reflexivity
      end ].

(** One pass through the loop body. *)
Lemma poll_iter_more nd w r w' :
  poll_iter nd w = (r, w') ->
  exists d,
    log w' = (log w ++ d)%list
    /\ Forall write_ok d
    /\ exn_ok (raised r)
    /\ eof_last (raised r) d
    /\ count is_close d = 0
    /\ clock w <= clock w' <= clock w + 5.
Proof.
  intros H. unfold Poller.poll_iter, next_output, truthy in H.
  run_in H; log_delta.
  all: split; [write_ok_list|].
  all: split; [first [exact I | left; reflexivity
                     | right; left; split; [reflexivity|];
                       first [left; reflexivity | right; reflexivity
                             | left; assumption | right; assumption]]|].
  all: split; [eof_last_list|].
  all: split; [reflexivity | lia].
Qed.

(** The loop: what it writes, how it can fail, and where the clock stands
    when it is over. *)
Lemma poll_loop_more fuel :
  forall start nd w r w',
    poll_loop fuel start nd w = (r, w') ->
    exists d,
      log w' = (log w ++ d)%list
      /\ Forall write_ok d
      /\ exn_ok (raised r)
      /\ eof_last (raised r) d
      /\ count is_close d = 0
      /\ clock w <= clock w'
      /\ clock w' <= Nat.max (clock w) (start + login_timeout + 4)
      /\ (forall m, r = Raise (NetmikoTimeoutException m) ->
          login_timeout <= clock w' - start).
Proof.
  induction fuel as [|fuel IH]; intros start nd w r w' H;
    rewrite PollerFacts.poll_loop_eq in H;
    destruct (clock w - start <? login_timeout)%nat eqn:T.
  1-2, 4: injection H as <- <-; exists []; rewrite app_nil_r; simpl;
    (split; [reflexivity|]); (split; [apply Forall_nil|]);
    (split; [first [exact I | right; right; reflexivity]|]);
    (split; [right; split; [discriminate | reflexivity]|]);
    (split; [reflexivity|]); (split; [lia|]); (split; [lia|]);
    intros m [=]; apply Nat.ltb_ge in T; exact T.
  apply Nat.ltb_lt in T.
  destruct (poll_iter nd w) as [r1 w1] eqn:E.
  destruct (poll_iter_more _ _ _ _ E) as (d1 & L1 & W1 & X1 & F1 & C1 & K1).
  destruct r1 as [[|nd']| e |]; [| |injection H as <- <-..].
  - injection H as <- <-. exists d1.
    repeat (split; [first [assumption | lia]|]). intros m [=].
  - destruct (IH _ _ _ _ _ H) as (d2 & L2 & W2 & X2 & F2 & C2 & K2 & K3 & K4).
    exists (d1 ++ d2)%list. rewrite L2, L1, app_assoc.
    split; [reflexivity|]. split; [apply Forall_app; now split|].
    split; [exact X2|].
    split; [apply eof_last_app;
            [eapply eof_last_quiet; [|exact F1]; simpl; discriminate | exact F2]|].
    split; [rewrite count_app; lia|]. split; [lia|]. split; [lia | exact K4].
  - exists d1. repeat (split; [first [assumption | lia]|]).
    intros m [= ->]. simpl in F1, X1.
    exfalso. revert E. clear. unfold Poller.poll_iter, next_output, truthy.
    intros H. run_in H.
  - exists d1. repeat (split; [first [assumption | lia]|]). intros m [=].
Qed.

(** The whole call, from the loop. *)
Lemma handler_more w r w' :
  special_login_handler w = (r, w') ->
  exists d,
    log w' = (log w ++ d)%list
    /\ Forall write_ok d
    /\ exn_ok (raised r)
    /\ eof_last (raised r) d
    /\ count is_close d = 0
    /\ clock w + 1 <= clock w' <= clock w + 1 + login_timeout + 4
    /\ (forall m, r = Raise (NetmikoTimeoutException m) ->
        clock w + 1 + login_timeout <= clock w').
Proof.
  rewrite PollerFacts.special_login_handler_eq. intros H.
  destruct (poll_loop_more _ _ _ _ _ _ H)
    as (d & L & W & X & F & C & K1 & K2 & K3).
  cbn [log clock] in L, K1, K2, K3.
  exists ([ESleep (Fixed 1)] ++ d)%list. rewrite L, <- app_assoc.
  split; [reflexivity|].
  split; [apply Forall_app; split; [repeat constructor | exact W]|].
  split; [exact X|].
  split; [apply eof_last_app; [reflexivity | exact F]|].
  split; [rewrite count_app, C; reflexivity|].
  split; [lia|]. intros m Hm. specialize (K3 m Hm). lia.
Qed.

Lemma no_credential_no_write d :
  Forall write_ok d ->
  (username = None -> count_writes WUser d = 0)
  /\ (password = None -> count_writes WPass d = 0).
Proof.
  induction 1 as [|e d He _ [IHu IHp]]; [now split|].
  split; intros N; specialize (IHu); specialize (IHp);
    change (e :: d) with ([e] ++ d)%list; rewrite count_writes_app;
    [rewrite (IHu N) | rewrite (IHp N)];
    destruct e as [| |[| |] s| |]; try reflexivity;
    simpl in He; destruct He as (x & Hx & _); congruence.
Qed.

Lemma handler_password w r w' :
  special_login_handler w = (r, w') ->
  exists d,
    log w' = (log w ++ d)%list
    /\ (r = Ok tt -> Poller.password_last password RETURN d)
    /\ (r <> Ok tt -> count_writes WPass d = 0).
Proof.
  rewrite PollerFacts.special_login_handler_eq. intros E.
  destruct (PollerFacts.poll_loop_log _ _ _ _ _ _ _ _ _ E) as (d & L & P).
  exists ([ESleep (Fixed 1)] ++ d)%list.
  split; [rewrite L; simpl; now rewrite <- app_assoc|].
  destruct P as [[-> (d0 & p & Hp & -> & Z)]|[N Z]].
  - split; [|congruence]. intros _.
    exists ([ESleep (Fixed 1)] ++ d0)%list, p.
    rewrite count_writes_app, Z, <- app_assoc. now repeat split.
  - split; [congruence|]. intros _. now rewrite count_writes_app, Z.
Qed.

(** X1.  The handler returns normally exactly when it has sent the password:
    a normal return has the password write as the last event of the call,
    and a call that ends in any other way has written no password. *)
Theorem returns_exactly_when_password_sent w :
  exists d,
    log (snd (special_login_handler w)) = (log w ++ d)%list
    /\ (fst (special_login_handler w) = Ok tt ->
        Poller.password_last password RETURN d)
    /\ (fst (special_login_handler w) <> Ok tt ->
        count_writes WPass d = 0).
Proof.
  destruct (special_login_handler w) as [r w'] eqn:E.
  exact (handler_password _ _ _ E).
Qed.

(** X2.  The call sleeps for at least a tenth of a second and for at most
    [login_timeout] and five tenths more; the timeout exception is raised
    only when [login_timeout] has gone by since the start of the loop, and
    its message is the fixed text. *)
Theorem handler_timing w :
  clock w + 1 <= clock (snd (special_login_handler w))
  /\ clock (snd (special_login_handler w)) <= clock w + login_timeout + 5
  /\ (forall m,
      fst (special_login_handler w) = Raise (NetmikoTimeoutException m) ->
      m = timeout_msg
      /\ clock w + 1 + login_timeout <= clock (snd (special_login_handler w))).
Proof.
  destruct (special_login_handler w) as [r w'] eqn:E.
  destruct (handler_more _ _ _ E) as (d & _ & _ & X & _ & _ & K & T).
  simpl fst; simpl snd. split; [lia|]. split; [lia|].
  intros m ->. split; [|now apply (T m)].
  simpl in X. destruct X as [X|[[X _]|X]]; try discriminate.
  now injection X.
Qed.

(** X3.  The handler fails in three ways only: with the [EOFError] of a read,
    with the [AssertionError] of a credential that is not a string, or
    with the timeout exception.  It raises no authentication error, and it
    never closes the connection. *)
Theorem handler_failures w :
  exists d,
    log (snd (special_login_handler w)) = (log w ++ d)%list
    /\ count is_close d = 0
    /\ (forall e,
        fst (special_login_handler w) = Raise e ->
        e = EOFError
        \/ (e = AssertionError /\ (username = None \/ password = None))
        \/ e = NetmikoTimeoutException timeout_msg).
Proof.
  destruct (special_login_handler w) as [r w'] eqn:E.
  destruct (handler_more _ _ _ E) as (d & L & _ & X & _ & C & _).
  exists d. simpl fst; simpl snd. split; [exact L|]. split; [exact C|].
  intros e ->. exact X.
Qed.

(** X4.  A closed stream is not handled: the read that meets it is the last
    event of the call, which ends with the [EOFError]; a call that ends in
    any other way has met no closed stream. *)
Theorem eof_ends_the_call w :
  exists d,
    log (snd (special_login_handler w)) = (log w ++ d)%list
    /\ ((fst (special_login_handler w) = Raise EOFError
         /\ exists d0, d = (d0 ++ [EReadEof])%list /\ count is_eof d0 = 0)
        \/ (fst (special_login_handler w) <> Raise EOFError
            /\ count is_eof d = 0)).
Proof.
  destruct (special_login_handler w) as [r w'] eqn:E.
  destruct (handler_more _ _ _ E) as (d & L & _ & _ & F & _).
  exists d. simpl fst; simpl snd. split; [exact L|].
  destruct F as [[X P]|[X Z]].
  - left. split; [|exact P]. destruct r; simpl in X; congruence.
  - right. split; [|exact Z]. intros ->. now apply X.
Qed.

(** X5.  Every write of the call ends with [RETURN]: it is the username and
    [RETURN], the password and [RETURN], or [RETURN] alone.  A session
    without a username writes no username; a session without a password
    writes no password and never returns normally. *)
Theorem handler_writes w :
  exists d,
    log (snd (special_login_handler w)) = (log w ++ d)%list
    /\ Forall (poll_write_ok username password RETURN) d
    /\ (username = None -> count_writes WUser d = 0)
    /\ (password = None ->
        count_writes WPass d = 0 /\ fst (special_login_handler w) <> Ok tt).
Proof.
  destruct (special_login_handler w) as [r w'] eqn:E.
  destruct (handler_password _ _ _ E) as (d' & L' & R & _).
  destruct (handler_more _ _ _ E) as (d & L & W & _).
  simpl fst in *; simpl snd in *.
  assert (d' = d) as -> by (rewrite L in L'; now apply app_inv_head in L').
  exists d. split; [exact L|]. split; [exact W|].
  destruct (no_credential_no_write d W) as [Nu Np].
  split; [exact Nu|]. intros N. split; [now apply Np|].
  intros Hr. destruct (R Hr) as (d0 & p & Hp & _). congruence.
Qed.

End WithSession.
End PollerMore.

(* ================================================================== *)
(** * More on echo normalisation *)
(* ================================================================== *)

Module EchoMore.
Import PyStr Telnet Observed.

Lemma prefix_append (p q : string) : prefix p (p ++ q) = true.
Proof.
  induction p as [|c p IH]; simpl; [now destruct q|].
  destruct (ascii_dec c c); [exact IH | congruence].
Qed.

(** A text without the separator is one segment. *)
Lemma split_go_absent c0 sep' (s : string) :
  forall cur,
    contains (String c0 sep') s = false ->
    split_go c0 sep' 0 cur s = [cur ++ s].
Proof.
  induction s as [|c s IH]; intros cur H.
  - simpl. now rewrite PyStrFacts.append_nil_r.
  - cbn [contains] in H. apply orb_false_iff in H as [H1 H2].
    cbn [split_go]. rewrite H1, IH by exact H2.
    now rewrite PyStrFacts.append_assoc.
Qed.

(** Stepping over the rest of an occurrence. *)
Lemma split_go_skip c0 sep' (x : string) :
  forall cur y,
    split_go c0 sep' (String.length x) cur (x ++ y) = split_go c0 sep' 0 cur y.
Proof.
  induction x as [|c x IH]; intros cur y; [reflexivity|].
  simpl. apply IH.
Qed.

(** The first segment ends where the first occurrence starts. *)
Lemma split_go_first c0 sep' (a b : string) :
  forall cur,
    absent_before (String c0 sep') a (String c0 sep' ++ b) = true ->
    split_go c0 sep' 0 cur (a ++ String c0 sep' ++ b)
    = (cur ++ a) :: split_go c0 sep' 0 EmptyString b.
Proof.
  induction a as [|c a IH]; intros cur H.
  - change (EmptyString ++ String c0 sep' ++ b) with (String c0 (sep' ++ b)).
    cbn [split_go].
    change (String c0 (sep' ++ b)) with (String c0 sep' ++ b) at 1.
    rewrite prefix_append, split_go_skip.
    now rewrite PyStrFacts.append_nil_r.
  - cbn [absent_before] in H. apply andb_true_iff in H as [H1 H2].
    apply negb_true_iff in H1.
    change (String c a ++ String c0 sep' ++ b)
      with (String c (a ++ String c0 sep' ++ b)) in *.
    cbn [split_go]. rewrite H1, IH by exact H2.
    now rewrite PyStrFacts.append_assoc.
Qed.

(** X6.  When the prompt pattern does not occur in what was read, the text is
    handed back as it was read. *)
Theorem echo_unchanged_without_pattern
    (search_pattern cmd : string) (w : world) (new_data : string) :
  search_pattern <> EmptyString ->
  fst (read_channel w) = Ok new_data ->
  contains search_pattern new_data = false ->
  fst (command_echo_read search_pattern cmd w) = Ok new_data.
Proof.
  intros Hsep Hread Habs. unfold command_echo_read, bind.
  destruct (read_channel w) as [r w1]. simpl in Hread. subst r.
  destruct search_pattern as [|c0 sep']; [congruence|].
  unfold split. rewrite split_go_absent by exact Habs. reflexivity.
Qed.

(** X7.  When the prompt pattern occurs exactly once in what was read, at the
    end of [a] and with [b] behind it, the result is the command followed
    by [b]: what stood in front of the pattern, and the pattern, are
    replaced by the command. *)
Theorem echo_single_occurrence
    (search_pattern cmd : string) (w : world) (a b : string) :
  search_pattern <> EmptyString ->
  fst (read_channel w) = Ok (a ++ search_pattern ++ b) ->
  absent_before search_pattern a (search_pattern ++ b) = true ->
  contains search_pattern b = false ->
  fst (command_echo_read search_pattern cmd w) = Ok (cmd ++ b).
Proof.
  intros Hsep Hread Ha Hb. unfold command_echo_read, bind.
  destruct (read_channel w) as [r w1]. simpl in Hread. subst r.
  destruct search_pattern as [|c0 sep']; [congruence|].
  unfold split. rewrite split_go_first by exact Ha.
  rewrite split_go_absent by exact Hb. reflexivity.
Qed.

(** A banner without a prompt. *)
Lemma echo_unchanged_without_pattern_witness :
  fst (command_echo_read ">" "show" (initial [Data "CyberPower System"]))
  = Ok "CyberPower System".
Proof.
  apply echo_unchanged_without_pattern;
    [discriminate | reflexivity | reflexivity].
Defined.

(** The prompt, once, in front of the echo of the command. *)
Lemma echo_single_occurrence_witness :
  fst (command_echo_read ">" "show" (initial [Data "pdu> show"]))
  = Ok ("show" ++ " show").
Proof.
  apply (echo_single_occurrence ">" "show" (initial [Data "pdu> show"])
           "pdu" " show");
    [discriminate | reflexivity | reflexivity | reflexivity].
Defined.

End EchoMore.

(* ================================================================== *)
(** * Echo normalisation, case by case *)
(* ================================================================== *)

Module EchoCases.
Import PyStr Telnet Observed.

(** A text with the separator has at least two segments. *)
Lemma split_go_present c0 sep' (s : string) :
  forall cur,
    contains (String c0 sep') s = true ->
    2 <= List.length (split_go c0 sep' 0 cur s).
Proof.
  induction s as [|c s IH]; intros cur H.
  - simpl in H. discriminate.
  - cbn [contains] in H. cbn [split_go].
    destruct (prefix (String c0 sep') (String c s)) eqn:P.
    + pose proof (PyStrFacts.split_go_nonempty c0 sep' s
                    (String.length sep') EmptyString) as N.
      destruct (split_go c0 sep' (String.length sep') EmptyString s);
        [congruence | simpl; lia].
    + simpl in H. now apply IH.
Qed.

(** A text with the separator has a first occurrence of it. *)
Lemma first_occurrence (sep s : string) :
  contains sep s = true ->
  exists a b,
    s = a ++ sep ++ b /\ absent_before sep a (sep ++ b) = true.
Proof.
  induction s as [|c s IH]; intros H.
  - cbn [contains] in H. destruct (PyStrFacts.prefix_drop _ _ H) as [E _].
    exists EmptyString, (drop (String.length sep) EmptyString).
    split; [exact E | reflexivity].
  - cbn [contains] in H.
    destruct (prefix sep (String c s)) eqn:P.
    + destruct (PyStrFacts.prefix_drop _ _ P) as [E _].
      exists EmptyString, (drop (String.length sep) (String c s)).
      split; [exact E | reflexivity].
    + simpl in H. destruct (IH H) as (a & b & -> & A).
      exists (String c a), b. split; [reflexivity|].
      cbn [absent_before]. rewrite A.
      change (String c a ++ sep ++ b) with (String c (a ++ sep ++ b)).
      now rewrite P.
Qed.

(** C4.  For every text that the read delivers and every command, with a
    prompt pattern that is not empty: when the pattern does not occur in
    the text the split has one segment and the result is the text as it was
    read; when it occurs, let [a] be the text in front of its first
    occurrence and [b] the text behind it: if the pattern does not occur
    again in [b], the split has exactly the two segments [a] and [b] and
    the result is the command followed by [b], the trailing segment; if it
    occurs again, the split has three segments or more and the result is
    the text as it was read. *)
Theorem command_echo_read_two_segments_or_unchanged
    (search_pattern cmd : string) (w : world) (new_data : string) :
  search_pattern <> EmptyString ->
  fst (read_channel w) = Ok new_data ->
  (contains search_pattern new_data = false
   /\ split search_pattern new_data = Some [new_data]
   /\ fst (command_echo_read search_pattern cmd w) = Ok new_data)
  \/ (exists a b,
      new_data = a ++ search_pattern ++ b
      /\ absent_before search_pattern a (search_pattern ++ b) = true
      /\ ((contains search_pattern b = false
           /\ split search_pattern new_data = Some [a; b]
           /\ fst (command_echo_read search_pattern cmd w) = Ok (cmd ++ b))
          \/ (contains search_pattern b = true
              /\ (exists rest,
                    split search_pattern new_data = Some (a :: rest)
                    /\ 2 <= List.length rest)
              /\ fst (command_echo_read search_pattern cmd w) = Ok new_data))).
Proof.
  intros Hsep Hread. unfold command_echo_read, bind.
  destruct (read_channel w) as [r w1]. simpl in Hread. subst r.
  destruct (contains search_pattern new_data) eqn:C.
  - right. destruct (first_occurrence _ _ C) as (a & b & -> & A).
    exists a, b. split; [reflexivity|]. split; [exact A|].
    destruct search_pattern as [|c0 sep']; [congruence|].
    unfold split. rewrite EchoMore.split_go_first by exact A.
    destruct (contains (String c0 sep') b) eqn:Cb.
    + right. split; [reflexivity|].
      pose proof (split_go_present c0 sep' b EmptyString Cb) as Len.
      split; [eexists; split; [reflexivity | exact Len]|].
      destruct (split_go c0 sep' 0 EmptyString b) as [|x [|y rest]];
        simpl in Len; try lia; reflexivity.
    + left. split; [reflexivity|].
      rewrite EchoMore.split_go_absent by exact Cb. now split.
  - left. split; [reflexivity|].
    destruct search_pattern as [|c0 sep']; [congruence|].
    unfold split. rewrite EchoMore.split_go_absent by exact C. now split.
Qed.

(** The prompt [pdu>] in front of the echo of the command: two segments,
    and the result is the command and the trailing segment. *)
Lemma command_echo_read_witness :
  fst (command_echo_read ">" "show" (initial [Data "pdu>show"]))
  = Ok "showshow".
Proof.
  assert (">" <> EmptyString) as H by discriminate.
  destruct (command_echo_read_two_segments_or_unchanged ">" "show"
              (initial [Data "pdu>show"]) "pdu>show" H eq_refl)
    as [(C & _)|(a & b & _ & _ & [(_ & S & R)|(_ & (rest & S & Len) & _)])].
  - vm_compute in C. discriminate C.
  - vm_compute in S. injection S as <- <-. exact R.
  - vm_compute in S. injection S as <- <-. simpl in Len. lia.
Defined.

End EchoCases.

(* ================================================================== *)
(** * More on the Telnet login automaton *)
(* ================================================================== *)

Module TelnetMore.
Import Telnet Observed.

Lemma reads_text_app d1 d2 :
  reads_text (d1 ++ d2) = reads_text d1 ++ reads_text d2.
Proof.
  induction d1 as [|e d1 IH]; [reflexivity|].
  destruct e; simpl; rewrite IH; try reflexivity.
  now rewrite PyStrFacts.append_assoc.
Qed.

Lemma ends_with_prompt_app pri alt d1 d2 :
  ends_with_prompt pri alt d2 -> ends_with_prompt pri alt (d1 ++ d2).
Proof.
  intros (d0 & s & -> & H). exists (d1 ++ d0)%list, s.
  now rewrite app_assoc.
Qed.

Section WithSession.
Variables (username password : option string) (host TELNET_RETURN : string).
Variables (username_pattern pwd_pattern : string -> bool).
Variables (pri_prompt_terminator alt_prompt_terminator : string -> bool).

#[local] Abbreviation login_failed := (login_failed host).
#[local] Abbreviation guarded_step :=
  (guarded_step username password host username_pattern pwd_pattern
     pri_prompt_terminator alt_prompt_terminator).
#[local] Abbreviation last_try :=
  (last_try host TELNET_RETURN pri_prompt_terminator alt_prompt_terminator).
#[local] Abbreviation round_ok :=
  (round_ok username password host pri_prompt_terminator
     alt_prompt_terminator).
#[local] Abbreviation write_ok := (round_write_ok username password).

Ltac write_ok_list :=
  repeat (apply Forall_cons;
          [first [exact I
                 | eexists; split; [first [eassumption | reflexivity]
                                   | reflexivity]]|]);
  apply Forall_nil.

Ltac transcript :=
  simpl; rewrite ?PyStrFacts.append_assoc; simpl;
  rewrite ?PyStrFacts.append_nil_r; reflexivity.

Lemma guarded_step_more rm w r w' :
  guarded_step rm w = (r, w') ->
  exists d, log w' = (log w ++ d)%list /\ round_ok rm r d.
Proof.
  intros H. unfold Telnet.guarded_step, try_eof, Telnet.login_step in H.
  run_in H; log_delta.
  all: unfold Observed.round_ok.
  all: split; [write_ok_list|].
  all: split; [first [exact I | left; reflexivity
                     | right; left; split; reflexivity
                     | right; right; split; reflexivity]|].
  all: first
    [ exact I
    | transcript
    | split; [transcript|];
      lazymatch goal with
      | |- ends_with_prompt _ _ ?l =>
          exists (removelast l); eexists; split; [reflexivity | eassumption]
      end ].
Qed.

Lemma round_ok_nil rm : round_ok rm (Ok (Continue rm)) [].
Proof.
  split; [apply Forall_nil|]. split; [exact I|].
  simpl. now rewrite PyStrFacts.append_nil_r.
Qed.

Lemma round_ok_app rm m r d1 d2 :
  round_ok rm (Ok (Continue m)) d1 -> round_ok m r d2 ->
  round_ok rm r (d1 ++ d2).
Proof.
  intros (W1 & _ & ->) (W2 & X2 & T2).
  split; [apply Forall_app; now split|]. split; [exact X2|].
  destruct r as [[m'|m']| |]; try exact I.
  - destruct T2 as [-> P]. split.
    + now rewrite reads_text_app, PyStrFacts.append_assoc.
    + now apply ends_with_prompt_app.
  - rewrite T2. now rewrite reads_text_app, PyStrFacts.append_assoc.
Qed.

Lemma round_ok_sleep rm m d x :
  round_ok rm (Ok (Continue m)) d ->
  round_ok rm (Ok (Continue m)) (d ++ [ESleep x]).
Proof.
  intros (W & _ & ->).
  split; [apply Forall_app; split; [exact W | repeat constructor]|].
  split; [exact I|].
  rewrite reads_text_app. simpl. now rewrite PyStrFacts.append_nil_r.
Qed.

Section Rounds.
Variable inner_loops : Z.

#[local] Abbreviation inner_while :=
  (inner_while username password host username_pattern pwd_pattern
     pri_prompt_terminator alt_prompt_terminator inner_loops).
#[local] Abbreviation one_round :=
  (one_round username password host username_pattern pwd_pattern
     pri_prompt_terminator alt_prompt_terminator inner_loops).
#[local] Abbreviation outer_for :=
  (outer_for username password host username_pattern pwd_pattern
     pri_prompt_terminator alt_prompt_terminator inner_loops).

Lemma inner_while_more fuel :
  forall i rm w r w',
    inner_while fuel i rm w = (r, w') ->
    exists d, log w' = (log w ++ d)%list /\ round_ok rm r d.
Proof.
  induction fuel as [|fuel IH]; intros i rm w r w' H;
    rewrite TelnetFacts.inner_while_eq in H;
    destruct (i <=? inner_loops)%Z.
  1-2, 4: injection H as <- <-; exists []; rewrite app_nil_r;
    (split; [reflexivity|]);
    first [apply round_ok_nil | repeat split; apply Forall_nil].
  destruct (guarded_step rm w) as [r1 w1] eqn:E.
  destruct (guarded_step_more _ _ _ _ E) as (d1 & L1 & P1).
  destruct r1 as [[m|m]|e|]; [| |injection H as <- <-..];
    try (exists d1; now split).
  - injection H as <- <-. exists d1. now split.
  - destruct (IH _ _ _ _ _ H) as (d2 & L2 & P2).
    exists (d1 ++ d2)%list. rewrite L2, L1, app_assoc.
    split; [reflexivity | now apply round_ok_app with m].
Qed.

Lemma one_round_more rm w r w' :
  one_round rm w = (r, w') ->
  exists d, log w' = (log w ++ d)%list /\ round_ok rm r d.
Proof.
  unfold Telnet.one_round, bind at 1. intros H.
  destruct (inner_while _ 1 rm w) as [r1 w1] eqn:E.
  destruct (inner_while_more _ _ _ _ _ _ E) as (d & L & P).
  destruct r1 as [[m|m]|e|]; [| |injection H as <- <-..];
    try (exists d; now split).
  - injection H as <- <-. exists d. now split.
  - unfold_m. simpl in H. injection H as <- <-. simpl.
    exists (d ++ [ESleep (Scaled 10)])%list. rewrite L, <- app_assoc.
    split; [reflexivity | now apply round_ok_sleep].
Qed.

Lemma outer_for_more n :
  forall rm w r w',
    outer_for n rm w = (r, w') ->
    exists d, log w' = (log w ++ d)%list /\ round_ok rm r d.
Proof.
  induction n as [|n IH]; intros rm w r w' H.
  - injection H as <- <-. exists []. rewrite app_nil_r.
    split; [reflexivity | apply round_ok_nil].
  - rewrite TelnetFacts.outer_for_eq in H.
    destruct (one_round rm w) as [r1 w1] eqn:E.
    destruct (one_round_more _ _ _ _ E) as (d1 & L1 & P1).
    destruct r1 as [[m|m]|e|]; [| |injection H as <- <-..];
      try (exists d1; now split).
    + injection H as <- <-. exists d1. now split.
    + destruct (IH _ _ _ _ H) as (d2 & L2 & P2).
      exists (d1 ++ d2)%list. rewrite L2, L1, app_assoc.
      split; [reflexivity | now apply round_ok_app with m].
Qed.

End Rounds.

Variable max_loops : Z.

#[local] Abbreviation _telnet_login :=
  (_telnet_login username password host TELNET_RETURN username_pattern
     pwd_pattern pri_prompt_terminator alt_prompt_terminator max_loops).
#[local] Abbreviation rounds il :=
  (outer_for username password host username_pattern pwd_pattern
     pri_prompt_terminator alt_prompt_terminator il outer_loops EmptyString).

(** The whole call, by the way it went: the division of line 134
    overflowed; or the round loop returned or raised; or it went on to the
    last check, which ends in one of three ways. *)
Lemma login_shape w r w' :
  _telnet_login w = (r, w') ->
  (r = Raise OverflowError
   /\ log w' = (log w ++ [ESleep (Scaled 20)])%list)
  \/ exists d r1,
    round_ok EmptyString r1 d
    /\ Telnet.round_trace host r1 d
    /\ ((exists m, r1 = Ok (Returned m) /\ r = Ok m
                   /\ log w' = (log w ++ [ESleep (Scaled 20)] ++ d)%list)
        \/ (exists e, r1 = Raise e /\ r = Raise e
                      /\ log w' = (log w ++ [ESleep (Scaled 20)] ++ d)%list)
        \/ (exists m t,
              r1 = Ok (Continue m)
              /\ log w' =
                 (log w ++ [ESleep (Scaled 20)] ++ d
                        ++ [EWrite WEnter TELNET_RETURN; ESleep (Scaled 5)]
                        ++ t)%list
              /\ ((t = [EReadEof] /\ r = Raise EOFError)
                  \/ (exists s, t = [ERead s]
                       /\ pri_prompt_terminator s || alt_prompt_terminator s = true
                       /\ r = Ok (m ++ s))
                  \/ (exists s, t = [ERead s; EClose]
                       /\ pri_prompt_terminator s || alt_prompt_terminator s = false
                       /\ r = Raise login_failed)))).
Proof.
  intros H.
  destruct (TelnetFacts.call_shape _ _ _ _ _ _ _ _ _ _ _ _ H)
    as [(_ & -> & L & _)|(il & r1 & w1 & d & _ & R & L & T & _ & _ & S)].
  { left. now split. }
  right. exists d, r1.
  destruct (outer_for_more il _ _ _ _ _ R) as (d' & L' & P).
  assert (d' = d) as ->.
  { rewrite L in L'. simpl in L'. rewrite <- app_assoc in L'.
    apply app_inv_head in L'. now injection L'. }
  split; [exact P|]. split; [exact T|].
  destruct S as [(m & -> & -> & ->)|[(e & -> & -> & ->)|(m & t & -> & L2 & S)]].
  - left. now exists m.
  - right. left. now exists e.
  - right. right. exists m, t. split; [reflexivity|].
    split; [rewrite L2, L; now rewrite <- !app_assoc|].
    destruct S as [(-> & _ & ->)|[(s & -> & _ & Q & ->)|(s & -> & _ & Q & ->)]].
    + now left.
    + right. left. now exists s.
    + right. right. now exists s.
Qed.

Lemma round_writes d :
  Forall write_ok d ->
  Forall (login_write_ok username password TELNET_RETURN) d
  /\ count_writes WEnter d = 0
  /\ (username = None -> count_writes WUser d = 0)
  /\ (password = None -> count_writes WPass d = 0).
Proof.
  induction 1 as [|e d He _ (IH1 & IH2 & IH3 & IH4)].
  - repeat split; apply Forall_nil.
  - change (e :: d) with ([e] ++ d)%list. rewrite !count_writes_app, IH2.
    split; [apply Forall_app; split; [|exact IH1]; apply Forall_cons;
            [|apply Forall_nil]; destruct e as [| |[| |] s| |]; try exact I;
            try exact He; destruct He|].
    split; [destruct e as [| |[| |] s| |]; try reflexivity; destruct He|].
    split; intros N; [rewrite (IH3 N) | rewrite (IH4 N)];
      destruct e as [| |[| |] s| |]; try reflexivity;
      simpl in He; destruct He as (x & Hx & _); congruence.
Qed.

(** X8.  A transcript that the login returns is the text of all the reads of
    the call, in their order, and the call ends with the read of a text
    that one of the two prompt terminators matches. *)
Theorem returned_transcript_is_all_reads w msg :
  fst (_telnet_login w) = Ok msg ->
  exists d,
    log (snd (_telnet_login w)) = (log w ++ d)%list
    /\ msg = reads_text d
    /\ ends_with_prompt pri_prompt_terminator alt_prompt_terminator d.
Proof.
  destruct (_telnet_login w) as [r w'] eqn:E. simpl. intros ->.
  destruct (login_shape _ _ _ E) as [([=] & _)|(d & r1 & (_ & _ & P) & _ & S)].
  destruct S as [(m & -> & [= ->] & L)|[(e & _ & [=] & _)|(m & t & -> & L & S)]].
  - destruct P as [-> P]. eexists. split; [exact L|].
    split; [reflexivity | now apply ends_with_prompt_app].
  - destruct S as [[_ [=]]|[(s & -> & Q & [= ->])|(s & _ & _ & [=])]].
    eexists. split; [exact L|]. simpl in P. subst m.
    split.
    + simpl. rewrite reads_text_app. simpl.
      now rewrite PyStrFacts.append_nil_r.
    + exists ([ESleep (Scaled 20)] ++ d
                ++ [EWrite WEnter TELNET_RETURN; ESleep (Scaled 5)])%list, s.
      split; [now rewrite <- !app_assoc | exact Q].
Qed.

(** X9.  The connection is closed exactly when the login raises the
    authentication error, and then the close is the last event of the call
    and the only close. *)
Theorem closed_exactly_on_login_failure w :
  exists d,
    log (snd (_telnet_login w)) = (log w ++ d)%list
    /\ ((fst (_telnet_login w) = Raise login_failed
         /\ exists d0, d = (d0 ++ [EClose])%list /\ count is_close d0 = 0)
        \/ (fst (_telnet_login w) <> Raise login_failed
            /\ count is_close d = 0)).
Proof.
  destruct (_telnet_login w) as [r w'] eqn:E. simpl.
  destruct (login_shape _ _ _ E) as [(-> & L)|(d & r1 & _ & T & S)].
  { eexists. split; [exact L|]. right. split; [discriminate | reflexivity]. }
  destruct S as [(m & -> & -> & L)|[(e & -> & -> & L)|(m & t & -> & L & S)]].
  - eexists. split; [exact L|]. right. split; [discriminate|].
    apply TelnetFacts.round_trace_ok_quiet in T. destruct T as (_ & _ & C).
    now rewrite count_app, C.
  - eexists. split; [exact L|].
    destruct T as [[[= ->] (d0 & -> & (_ & _ & C))]|(N & _ & (_ & _ & C))].
    + left. split; [reflexivity|].
      exists ([ESleep (Scaled 20)] ++ d0 ++ [EReadEof])%list.
      split; [now rewrite <- !app_assoc|]. now rewrite !count_app, C.
    + right. split; [congruence|]. now rewrite count_app, C.
  - apply TelnetFacts.round_trace_ok_quiet in T. destruct T as (_ & _ & C).
    eexists. split; [exact L|].
    destruct S as [[-> ->]|[(s & -> & _ & ->)|(s & -> & _ & ->)]].
    + right. split; [discriminate|]. now rewrite !count_app, C.
    + right. split; [discriminate|]. now rewrite !count_app, C.
    + left. split; [reflexivity|].
      exists ([ESleep (Scaled 20)] ++ d
                ++ [EWrite WEnter TELNET_RETURN; ESleep (Scaled 5); ERead s])%list.
      split; [now rewrite <- !app_assoc|]. now rewrite !count_app, C.
Qed.

(** X11.  Every write of the login is the username and a carriage return, the
    password and a carriage return, or [TELNET_RETURN]; the last is written
    at most once in a call.  A session without a username writes no
    username, and a session without a password writes no password. *)
Theorem login_writes w :
  exists d,
    log (snd (_telnet_login w)) = (log w ++ d)%list
    /\ Forall (login_write_ok username password TELNET_RETURN) d
    /\ count_writes WEnter d <= 1
    /\ (username = None -> count_writes WUser d = 0)
    /\ (password = None -> count_writes WPass d = 0).
Proof.
  destruct (_telnet_login w) as [r w'] eqn:E. simpl.
  destruct (login_shape _ _ _ E) as [(_ & L)|(d & r1 & (W & _) & _ & S)].
  { eexists. split; [exact L|].
    split; [repeat constructor|]. split; [unfold count_writes, count; simpl; lia|].
    split; intros _; reflexivity. }
  destruct (round_writes d W) as (W' & Ze & Zu & Zp).
  assert (forall t,
    Forall (login_write_ok username password TELNET_RETURN) t ->
    count_writes WEnter t <= 1 ->
    count_writes WUser t = 0 -> count_writes WPass t = 0 ->
    Forall (login_write_ok username password TELNET_RETURN)
      ([ESleep (Scaled 20)] ++ d ++ t)
    /\ count_writes WEnter ([ESleep (Scaled 20)] ++ d ++ t) <= 1
    /\ (username = None ->
        count_writes WUser ([ESleep (Scaled 20)] ++ d ++ t) = 0)
    /\ (password = None ->
        count_writes WPass ([ESleep (Scaled 20)] ++ d ++ t) = 0)) as K.
  { intros t Ft Et Ut Pt. rewrite !count_writes_app, Ze, Ut, Pt.
    split; [apply Forall_app; split; [repeat constructor|];
            apply Forall_app; now split|].
    split; [simpl; lia|].
    split; intros N; [rewrite (Zu N) | rewrite (Zp N)]; reflexivity. }
  destruct S as [(m & _ & _ & L)|[(e & _ & _ & L)|(m & t & _ & L & S)]].
  - eexists. split; [exact L|]. rewrite <- (app_nil_r d).
    apply K; try reflexivity; [apply Forall_nil | unfold count_writes, count; simpl; lia].
  - eexists. split; [exact L|]. rewrite <- (app_nil_r d).
    apply K; try reflexivity; [apply Forall_nil | unfold count_writes, count; simpl; lia].
  - eexists. split; [exact L|].
    apply K; destruct S as [[-> _]|[(s & -> & _)|(s & -> & _)]];
      try reflexivity; try (unfold count_writes, count; simpl; lia);
      repeat constructor.
Qed.


(** X12.  When the value that line 134 computes for [inner_loops] is zero
    or negative, as it is for a budget of 0, 1 or 2 and for a negative
    budget, there is no read/react step at all: after the first sleep and
    the pauses of the three empty rounds the login goes straight to the
    last check, so that no prompt is looked for and no credential is
    written. *)
Theorem short_budget_skips_rounds il w :
  compute_inner_loops max_loops = Some il ->
  (il <= 0)%Z ->
  _telnet_login w =
  last_try EmptyString
    (mkWorld (pending w)
             (log w ++ [ESleep (Scaled 20); ESleep (Scaled 10);
                        ESleep (Scaled 10); ESleep (Scaled 10)])
             (clock w) (steps w)).
Proof.
  intros Hil Hi.
  assert (forall rm w0,
            Telnet.one_round username password host username_pattern
              pwd_pattern pri_prompt_terminator alt_prompt_terminator il rm w0 =
            (Ok (Continue rm), emit (ESleep (Scaled 10)) w0)) as R.
  { intros rm w0. unfold Telnet.one_round, bind at 1.
    rewrite TelnetFacts.inner_while_eq.
    destruct (1 <=? il)%Z eqn:T;
      [apply Z.leb_le in T; lia | reflexivity]. }
  rewrite TelnetFacts.telnet_login_eq, Hil. unfold outer_loops.
  do 3 (rewrite TelnetFacts.outer_for_eq, R).
  cbn [Telnet.outer_for]. unfold ret, emit. simpl.
  rewrite <- !app_assoc. reflexivity.
Qed.

End WithSession.

(** The username prompt, the password prompt and the operational prompt,
    one after the other, within the first step. *)
Lemma returned_transcript_witness :
  exists d,
    log (snd (Example.login 3
                (initial [Data "Login Name:"; Data "Login Password:";
                          Data "pdu> "]))) = ([] ++ d)%list
    /\ "Login Name:Login Password:pdu> " = reads_text d
    /\ ends_with_prompt Example.pri_search Example.alt_search d.
Proof.
  refine (returned_transcript_is_all_reads (Some "admin") (Some "secret") "pdu"
           (CR ++ LF) Example.username_search Example.pwd_search
           Example.pri_search Example.alt_search 3
           (initial [Data "Login Name:"; Data "Login Password:"; Data "pdu> "])
           "Login Name:Login Password:pdu> " _).
  vm_compute. reflexivity.
Defined.

(** A budget of two attempts, with the username prompt waiting in the
    channel: it is read by the last check only, and no username is
    written. *)
Lemma short_budget_witness :
  Example.login 2 (initial [Data "Login Name:"]) =
  Telnet.last_try "pdu" (CR ++ LF) Example.pri_search Example.alt_search
    EmptyString
    (mkWorld [Data "Login Name:"]
             ([] ++ [ESleep (Scaled 20); ESleep (Scaled 10);
                     ESleep (Scaled 10); ESleep (Scaled 10)])
             0 0).
Proof.
  refine (short_budget_skips_rounds (Some "admin") (Some "secret") "pdu"
            (CR ++ LF) Example.username_search Example.pwd_search
            Example.pri_search Example.alt_search 2 0
            (initial [Data "Login Name:"]) _ _);
    vm_compute; first [reflexivity | discriminate].
Defined.

End TelnetMore.
